(** * Penumbral-image reconstruction ([reconstruct.py]): model and properties

    A shallow embedding of the forward model [simple_penumbra], of the
    multi-aperture objective [simple_fit] and of the per-cut pipeline of the
    main loop.

    Numbers.  Coordinates, radii and fit parameters are real numbers ([R]);
    pixel values are [npfloat]s, reals extended with the three non-finite
    values of a numpy float64.  The rules for [inf] and [nan] are
    modelled.  Rounding to float64 ([round_binary64]) is modelled where
    [simple_penumbra] computes one threshold twice, in the branch test of
    line 147 and in the kernel length of line 148: there the rounding
    decides whether [r_kernel[1]] exists.  Elsewhere arithmetic is exact.
    Two-dimensional arrays are kept in row-major order as lists, the way
    [ndarray.ravel] lays them out. *)

From Stdlib Require Import Reals Lra Lia ZArith List Bool.
Import ListNotations.
Open Scope R_scope.

(* ================================================================== *)
(** ** Python and numpy prelude *)

Module NP.

(** Exceptions the modelled code can raise. *)
Inductive exn : Type := ValueError | AssertionError | IndexError.

Inductive Result (A : Type) : Type :=
| Ok (a : A)
| Raise (e : exn).
Arguments Ok {A} a.
Arguments Raise {A} e.

Definition bind {A B : Type} (m : Result A) (k : A -> Result B) : Result B :=
  match m with
  | Ok a => k a
  | Raise e => Raise e
  end.

Definition py_assert (b : bool) : Result unit :=
  if b then Ok tt else Raise AssertionError.

(** A numpy float64 up to rounding. *)
Inductive npfloat : Type :=
| Fin (r : R)
| PInf
| NInf
| NaN.

Definition Rltb (a b : R) : bool := if Rlt_dec a b then true else false.
Definition Rleb (a b : R) : bool := if Rle_dec a b then true else false.
Definition Reqb (a b : R) : bool := if Req_dec_T a b then true else false.

Definition isnan (x : npfloat) : bool :=
  match x with NaN => true | _ => false end.

Definition isfinite (x : npfloat) : bool :=
  match x with Fin _ => true | _ => false end.

Definition fneg (x : npfloat) : npfloat :=
  match x with
  | Fin r => Fin (- r)
  | PInf => NInf
  | NInf => PInf
  | NaN => NaN
  end.

Definition fadd (x y : npfloat) : npfloat :=
  match x, y with
  | NaN, _ | _, NaN => NaN
  | Fin a, Fin b => Fin (a + b)
  | PInf, NInf | NInf, PInf => NaN
  | PInf, _ | _, PInf => PInf
  | NInf, _ | _, NInf => NInf
  end.

Definition fsub (x y : npfloat) : npfloat := fadd x (fneg y).

(** The infinity of the given sign. *)
Definition signed_inf (positive : bool) : npfloat :=
  if positive then PInf else NInf.

Definition fmul (x y : npfloat) : npfloat :=
  match x, y with
  | NaN, _ | _, NaN => NaN
  | Fin a, Fin b => Fin (a * b)
  | PInf, PInf | NInf, NInf => PInf
  | PInf, NInf | NInf, PInf => NInf
  | PInf, Fin a | Fin a, PInf =>
      if Reqb a 0 then NaN else signed_inf (Rltb 0 a)
  | NInf, Fin a | Fin a, NInf =>
      if Reqb a 0 then NaN else signed_inf (Rltb a 0)
  end.

(** Division with [np.seterr('ignore')]: a zero divisor gives [inf] or
    [nan], never an exception. *)
Definition fdiv (x y : npfloat) : npfloat :=
  match x, y with
  | NaN, _ | _, NaN => NaN
  | Fin a, Fin b =>
      if Reqb b 0
      then (if Reqb a 0 then NaN else signed_inf (Rltb 0 a))
      else Fin (a / b)
  | Fin _, _ => Fin 0
  | PInf, Fin b => signed_inf (Rleb 0 b)
  | NInf, Fin b => signed_inf (Rltb b 0)
  | _, _ => NaN
  end.

Definition fsqr (x : npfloat) : npfloat := fmul x x.

Definition flog (x : npfloat) : npfloat :=
  match x with
  | Fin a => if Rltb 0 a then Fin (ln a) else if Reqb a 0 then NInf else NaN
  | PInf => PInf
  | _ => NaN
  end.

(** Comparisons are false as soon as one side is [nan]. *)
Definition flt (x y : npfloat) : bool :=
  match x, y with
  | NaN, _ | _, NaN => false
  | Fin a, Fin b => Rltb a b
  | _, NInf | PInf, _ => false
  | NInf, _ | _, PInf => true
  end.

Definition fle (x y : npfloat) : bool :=
  match x, y with
  | NaN, _ | _, NaN => false
  | Fin a, Fin b => Rleb a b
  | NInf, _ | _, PInf => true
  | _, _ => false
  end.

Definition fgt (x y : npfloat) : bool := flt y x.
Definition fge (x y : npfloat) : bool := fle y x.

Definition feqb (x y : npfloat) : bool :=
  match x, y with
  | Fin a, Fin b => Reqb a b
  | PInf, PInf | NInf, NInf => true
  | _, _ => false
  end.

(** [np.maximum] on scalars: [nan] wins. *)
Definition fmaximum (x y : npfloat) : npfloat :=
  match x, y with
  | NaN, _ | _, NaN => NaN
  | _, _ => if flt x y then y else x
  end.

(** [int(x)]: truncation toward zero. *)
Definition py_int (x : R) : Z :=
  if Rle_dec 0 x then Int_part x else (- Int_part (- x))%Z.

(** The ceiling, as [np.arange] uses it for its length. *)
Definition ceilZ (x : R) : Z := (- Int_part (- x))%Z.

(** Rounding to the nearest integer, ties to the even one. *)
Definition rne (t : R) : Z :=
  let f := Int_part t in
  if Rlt_dec (t - IZR f) (1 / 2) then f
  else if Rlt_dec (1 / 2) (t - IZR f) then (f + 1)%Z
  else if Z.even f then f else (f + 1)%Z.

(** The exponent [e] with [2^e <= |x| < 2^(e+1)], and no less than the
    exponent of the smallest normal float64. *)
Definition binade (x : R) : Z :=
  Z.max (-1022) (Int_part (ln (Rabs x) / ln 2)).

(** The float64 nearest to [x], ties to even: the result of a float64
    division or multiplication whose exact value is [x].  A float64 has 53
    significant bits, so the spacing in the binade of [x] is
    [2^(binade x - 52)].  Overflow to [inf] is left out. *)
Definition round_binary64 (x : R) : R :=
  let ulp := powerRZ 2 (binade x - 52) in
  IZR (rne (x / ulp)) * ulp.

(** [range(lo, hi)]. *)
Definition py_range (lo hi : Z) : list Z :=
  map (fun k => (lo + Z.of_nat k)%Z) (seq 0 (Z.to_nat (hi - lo))).

(** [l[i]] for [i >= 0]. *)
Definition index {A : Type} (l : list A) (i : nat) : Result A :=
  match nth_error l i with
  | Some a => Ok a
  | None => Raise IndexError
  end.

(** [l[-1]]. *)
Definition index_last {A : Type} (l : list A) : Result A :=
  match l with
  | [] => Raise IndexError
  | _ => index l (length l - 1)
  end.

(** [l[start:stop]] with Python's treatment of negative and oversized
    bounds. *)
Definition py_slice {A : Type} (l : list A) (start stop : Z) : list A :=
  let n := Z.of_nat (length l) in
  let norm i := Z.min n (Z.max 0 (if (i <? 0)%Z then i + n else i))%Z in
  let a := norm start in
  let b := norm stop in
  firstn (Z.to_nat (b - a)) (skipn (Z.to_nat a) l).

(** [np.linspace(a, b, num)]; numpy refuses a negative [num]. *)
Definition np_linspace (a b : R) (num : Z) : Result (list R) :=
  if (num <? 0)%Z then Raise ValueError
  else
    let n := Z.to_nat num in
    Ok (map (fun k => a + INR k * ((b - a) / INR (n - 1))) (seq 0 n)).

(** [np.arange(start, stop, step)] for a positive step. *)
Definition np_arange (start stop step : R) : list R :=
  map (fun k => start + INR k * step)
      (seq 0 (Z.to_nat (ceilZ ((stop - start) / step)))).

(** [np.sum] over floats and over booleans. *)
Definition np_sum (l : list npfloat) : npfloat := fold_left fadd l (Fin 0).

Definition count_true (l : list bool) : nat := length (filter (fun b => b) l).

(** [np.sum(v, where=mask)]. *)
Fixpoint np_sum_where (v : list npfloat) (mask : list bool) : npfloat :=
  match v, mask with
  | x :: v', m :: mask' =>
      let rest := np_sum_where v' mask' in
      if m then fadd x rest else rest
  | _, _ => Fin 0
  end.

(** [np.max]; numpy raises on an empty array. *)
Definition np_max (l : list npfloat) : Result npfloat :=
  match l with
  | [] => Raise ValueError
  | x :: l' => Ok (fold_left fmaximum l' x)
  end.

(** Elementwise binary operation on arrays of one shape. *)
Fixpoint map2 {A B C : Type} (f : A -> B -> C) (l1 : list A) (l2 : list B)
  : list C :=
  match l1, l2 with
  | a :: l1', b :: l2' => f a b :: map2 f l1' l2'
  | _, _ => []
  end.

(** [a[mask]]: the entries selected by a boolean mask, in order. *)
Fixpoint select {A : Type} (mask : list bool) (a : list A) : list A :=
  match mask, a with
  | m :: mask', x :: a' =>
      if m then x :: select mask' a' else select mask' a'
  | _, _ => []
  end.

(** [a[mask] += vals]. *)
Fixpoint scatter_add (a : list npfloat) (mask : list bool)
  (vals : list npfloat) : list npfloat :=
  match a, mask with
  | x :: a', m :: mask' =>
      if m then
        match vals with
        | v :: vals' => fadd x v :: scatter_add a' mask' vals'
        | [] => x :: scatter_add a' mask' []
        end
      else x :: scatter_add a' mask' vals
  | _, _ => a
  end.

(** [a[mask] = True]. *)
Definition mask_set (a mask : list bool) : list bool := map2 orb a mask.

(** Coefficient [k] of the product of two sequences: the sum of
    [a[i] * v[k - i]]. *)
Definition conv_coeff (a v : list npfloat) (k : nat) : npfloat :=
  np_sum
    (map (fun i => fmul (nth i a (Fin 0)) (nth (k - i) v (Fin 0)))
         (filter (fun i => Nat.ltb (k - i) (length v))
                 (seq 0 (Nat.min (S k) (length a))))).

(** [np.convolve(a, v, mode='same')]: the middle [max(len a, len v)]
    entries of the full product; numpy raises on an empty operand. *)
Definition np_convolve_same (a v : list npfloat) : Result (list npfloat) :=
  match a, v with
  | [], _ | _, [] => Raise ValueError
  | _, _ =>
      let n := length a in
      let m := length v in
      let first := (Nat.min n m - 1) / 2 in
      Ok (map (fun k => conv_coeff a v (first + k)) (seq 0 (Nat.max n m)))
  end%nat.

(** [np.hypot]. *)
Definition np_hypot (x y : R) : R := sqrt (x * x + y * y).

(** [np.meshgrid(x, y, indexing='ij')], raveled. *)
Definition meshgrid_ij (x y : list R) : list R * list R :=
  (flat_map (fun xi => map (fun _ => xi) y) x,
   flat_map (fun _ => y) x).

End NP.

Import NP.

Notation "'let*' x ':=' m 'in' k" := (bind m (fun x => k))
  (at level 10, x name, m at level 100, k at level 200).

(* ================================================================== *)
(** ** Module-level configuration *)

Definition OBJECT_SIZE : R := 200 / 10000.
Definition THRESHOLD : R := 1 / 10000.
Definition NON_STATISTICAL_NOISE : R := 0.
Definition SPREAD : R := 105 / 100.
Definition EXPECTED_MAGNIFICATION_ACCURACY : R := 4 / 1000.
Definition RESOLUTION : R := 50.

(** Functions the script imports from other modules of the repository
    ([electric_field_model], [segnal], [diameter]) or from numpy and scipy.
    They are taken as given; every property below holds whatever they
    compute. *)
Record Externals : Type := {
  (** [get_analytic_brightness(r0, Q, e_min, e_max)]: sample radii and
      brightnesses of the zero-blur profile. *)
  get_analytic_brightness : R -> R -> R -> R -> list R * list npfloat;
  (** The value [np.interp] gives at one abscissa, from sample points
      [xp], sample values [fp] and the value [right]. *)
  interp1 : list R -> list npfloat -> npfloat -> R -> npfloat;
  (** [segnal.linregress(x, y, weights)]: slope and intercept. *)
  linregress :
    list npfloat -> list npfloat -> list npfloat -> npfloat * npfloat;
  (** [diameter.D(e_bounds, τ=etch_time)]. *)
  diameter_D : R * R -> R -> R * R;
  (** [np.histogram2d(x, y, bins=(x_bins, y_bins))[0]]. *)
  histogram2d : list R -> list R -> list R -> list R -> list npfloat;
  (** [optimize.minimize(f, ..., method='Nelder-Mead',
      options=dict(initial_simplex=...)).x]. *)
  minimize : (list R -> Result npfloat) -> list (list R) -> list R;
  (** [np.average(a, weights=w)] for a boolean [w]. *)
  np_average : list npfloat -> list bool -> npfloat;
  (** [np.quantile(a, q)]. *)
  np_quantile : list npfloat -> R -> npfloat;
  (** [scipy.signal.convolve2d(a, k, mode='full')], each operand with its
      shape. *)
  convolve2d_full :
    nat * nat -> list npfloat -> nat * nat -> list npfloat -> list npfloat;
  (** [Delaunay(points).find_simplex(queries) == -1]. *)
  outside_hull : list (R * R) -> list (R * R) -> list bool;
  (** [segnal.gelfgat_deconvolve2d(F, q, D, threshold, where, illegal)]:
      the brightness map and its chi-squared. *)
  gelfgat_deconvolve2d :
    list npfloat -> list npfloat -> list npfloat -> R ->
    list bool -> list bool -> list npfloat * npfloat
}.

(* ================================================================== *)
(** ** The forward model and the multi-aperture objective *)

Section Model.

Variable ext : Externals.

(** Globals the two functions read: [VIEW_RADIUS] is reassigned by the main
    block for every scan, [n_bins] is defined there. *)
Variable VIEW_RADIUS : R.
Variable n_bins : Z.

(** [np.interp(x, xp, fp, right=right)]; numpy raises [ValueError] when
    there is no sample point or when [xp] and [fp] differ in length. *)
Definition np_interp (x xp : list R) (fp : list npfloat) (right : npfloat)
  : Result (list npfloat) :=
  if (length xp =? 0)%nat then Raise ValueError
  else if negb (length xp =? length fp)%nat then Raise ValueError
  else Ok (map (interp1 ext xp fp right) x).

(** Last two lines of [simple_penumbra]: map the profile to the requested
    radii and rescale. *)
Definition rescale_profile (r r_point : list R) (penumbra : list npfloat)
  (minimum maximum : npfloat) : Result (list npfloat) :=
  let* peak := np_max penumbra in
  let* w := np_interp r r_point (map (fun p => fdiv p peak) penumbra) (Fin 0) in
  Ok (map (fun wi => fadd minimum (fmul (fsub maximum minimum) wi)) w).

(** [simple_penumbra].  The quotient [r_max/n_bins] of line 147 and the
    expression [4*δ/r_max*n_bins] of line 148 are rounded the way float64
    division and multiplication round them; multiplying a float64 by 4 is
    exact. *)
Definition simple_penumbra (r : list R) (δ Q r0 r_max : R)
  (minimum maximum : npfloat) (e_min e_max : R) : Result (list npfloat) :=
  let '(rB, nB) := get_analytic_brightness ext r0 Q e_min e_max in
  if Rle_dec r_max (4 * δ) then Raise ValueError
  else if Rle_dec (round_binary64 (r_max / IZR n_bins)) (4 * δ) then
    let* r_kernel :=
      np_linspace (- 4 * δ) (4 * δ)
        (py_int (round_binary64 (round_binary64 (4 * δ / r_max) * IZR n_bins))
         * 2 + 1) in
    let n_kernel := map (fun rk => Fin (exp (- rk ^ 2 / δ ^ 2))) r_kernel in
    let* rk1 := index r_kernel 1 in
    let* rk0 := index r_kernel 0 in
    let r_point := np_arange (- 4 * δ) (r_max + 4 * δ) (rk1 - rk0) in
    let* n_point := np_interp r_point rB nB (Fin 0) in
    let* _ := py_assert (length n_kernel <=? length n_point)%nat in
    let* penumbra := np_convolve_same n_point n_kernel in
    rescale_profile r r_point penumbra minimum maximum
  else if Rle_dec 0 δ then
    let* r_point := np_linspace 0 r_max n_bins in
    let* penumbra := np_interp r_point rB nB (Fin 0) in
    rescale_profile r r_point penumbra minimum maximum
  else Raise ValueError.

(** What the Gaussian branch needs to build its kernel: a blur that passes
    the test of line 147 is positive, and [int(4*δ/r_max*n_bins)] is at
    least 1, so that [r_kernel] has a second entry. *)
Definition blur_resolved (δ r_max : R) : Prop :=
  round_binary64 (r_max / IZR n_bins) <= 4 * δ ->
  0 < δ /\
  (1 <= py_int (round_binary64 (round_binary64 (4 * δ / r_max) * IZR n_bins)))%Z.

(** The value the forward model returns at one radius [x], from the sample
    points and values of its last interpolation (lines 159 and 160). *)
Definition profile_value (minimum maximum : npfloat) (xp : list R)
  (fp : list npfloat) (x : R) : npfloat :=
  fadd minimum (fmul (fsub maximum minimum) (interp1 ext xp fp (Fin 0) x)).

(** Positional arguments of [simple_fit] between the parameter vector and
    [s0]; their number is what [len(args)] tells apart. *)
Inductive fit_extra : Type :=
| ChargeAndRadius (Q r0 : R)   (* len(args) == 12 *)
| NoExtra                      (* len(args) == 10 *)
| RadiusOnly (r0 : R).         (* len(args) == 11 *)

(** The remaining positional arguments.  [minimum] and [maximum] are both
    [None] or both given. *)
Record fit_data : Type := {
  s0 : R;
  r_img : R;
  min_max : option (npfloat * npfloat);
  X : list R;
  Y : list R;
  exp_data : list npfloat;
  e_min : R;
  e_max : R
}.

(** The names [simple_fit] binds when it parses its arguments. *)
Record fit_params : Type := {
  x0 : R; y0 : R; δ : R; Q : R; r0 : R; a : R; b : R; c : R
}.

Definition parse_args (p : list R) (ex : fit_extra) (a b c : R)
  : Result fit_params :=
  match p, ex with
  | [x0; y0; δ], ChargeAndRadius Q r0 =>
      Ok {| x0 := x0; y0 := y0; δ := δ; Q := Q; r0 := r0;
            a := a; b := b; c := c |}
  | [x0; y0; δ; r0], NoExtra =>
      Ok {| x0 := x0; y0 := y0; δ := δ; Q := 0; r0 := r0;
            a := a; b := b; c := c |}
  | [x0; y0; δ; Q], RadiusOnly r0 =>
      Ok {| x0 := x0; y0 := y0; δ := δ; Q := Q; r0 := r0;
            a := a; b := b; c := c |}
  | [x0; y0; δ; Q; a'; b'; c'], RadiusOnly r0 =>
      Ok {| x0 := x0; y0 := y0; δ := δ; Q := Q; r0 := r0;
            a := a'; b := b'; c := c' |}
  | _, _ => Raise ValueError
  end.

(** The feasibility test: [Q < 0 or abs(x0) > VIEW_RADIUS or
    abs(y0) > VIEW_RADIUS]. *)
Definition infeasible (g : fit_params) : bool :=
  Rltb (Q g) 0 || Rltb VIEW_RADIUS (Rabs (x0 g))
  || Rltb VIEW_RADIUS (Rabs (y0 g)).

(** State of the double loop over the aperture lattice: still running, or
    left by a [return]. *)
Inductive loop_state : Type :=
| Running (teo : list npfloat) (include : list bool)
| Returned (v : npfloat).

Definition x_eff (g : fit_params) (d : fit_data) : list R :=
  map2 (fun X Y => a g * (X - x0 g) + b g * (Y - y0 g)) (X d) (Y d).

Definition y_eff (g : fit_params) (d : fit_data) : list R :=
  map2 (fun X Y => b g * (X - x0 g) + c g * (Y - y0 g)) (X d) (Y d).

(** Distances of the pixels from the aperture image at offset [(dx, dy)],
    and the pixels that image covers. *)
Definition r_rel (g : fit_params) (d : fit_data) (dx dy : R) : list R :=
  map2 (fun xe ye => np_hypot (xe - dx) (ye - dy)) (x_eff g d) (y_eff g d).

Definition covered (g : fit_params) (d : fit_data) (dx dy : R) : list bool :=
  map (fun r => Rleb r (r_img d)) (r_rel g d dx dy).

(** Body of the inner loop once the offset has passed the [if]. *)
Definition add_aperture (g : fit_params) (d : fit_data) (dx dy : R)
  (st : loop_state) : Result loop_state :=
  match st with
  | Returned v => Ok (Returned v)
  | Running teo include =>
      let hit := covered g d dx dy in
      match simple_penumbra (select hit (r_rel g d dx dy)) (δ g) (Q g) (r0 g)
              (r_img d) (Fin 0) (Fin 1) (e_min d) (e_max d) with
      | Raise ValueError => Ok (Returned PInf)
      | Raise e => Raise e
      | Ok pen =>
          let teo' := scatter_add teo hit pen in
          let include' := mask_set include hit in
          if existsb isnan teo' then Ok (Returned PInf)
          else Ok (Running teo' include')
      end
  end.

Definition lattice_dy (s0 : R) (i : Z) : R := IZR i * sqrt 3 / 2 * s0.
Definition lattice_dx (s0 : R) (i j : Z) : R :=
  IZR (2 * j + i mod 2) * s0 / 2.

(** The double loop [for i in range(-6, 6): for j in range(-6, 6)]. *)
Definition fit_loop (g : fit_params) (d : fit_data) : Result loop_state :=
  fold_left
    (fun st i =>
       let dy := lattice_dy (s0 d) i in
       fold_left
         (fun st j =>
            let dx := lattice_dx (s0 d) i j in
            if Rlt_dec (np_hypot dx dy) (VIEW_RADIUS - r_img d)
            then bind st (add_aperture g d dx dy)
            else st)
         (py_range (-6) 6) st)
    (py_range (-6) 6)
    (Ok (Running (map (fun _ => Fin 0) (X d)) (map (fun _ => false) (X d)))).

(** The affine-distortion term of the penalty. *)
Definition affine_penalty (a b c : R) : R :=
  (a ^ 2 + 2 * b ^ 2 + c ^ 2) / (4 * EXPECTED_MAGNIFICATION_ACCURACY ^ 2).

(** What [simple_fit] does after the loop. *)
Definition score (g : fit_params) (d : fit_data) (teo : list npfloat)
  (include : list bool) : npfloat :=
  let sigma2 :=
    map (fun t =>
           fadd (fadd (Fin 1) t) (fsqr (fmul (Fin NON_STATISTICAL_NOISE) t)))
        teo in
  if (count_true include =? 0)%nat then PInf
  else
    let '(minimum, maximum) :=
      match min_max d with
      | Some mm => mm
      | None =>
          let '(scale, minimum) :=
            linregress ext teo (exp_data d)
              (map2 (fun i s => fdiv (Fin (if i : bool then 1 else 0)) s)
                    include sigma2) in
          (minimum, fadd minimum scale)
      end in
    if fgt minimum maximum then PInf
    else
      let teo := map (fun t => fadd minimum (fmul t (fsub maximum minimum)))
                     teo in
      let n_inc := Fin (INR (count_true include)) in
      let error :=
        fsub (np_sum_where
                (map2 fdiv (map2 (fun e t => fsqr (fsub e t)) (exp_data d) teo)
                      sigma2)
                include)
             (fmul (Fin 2) n_inc) in
      let penalty :=
        fsub (fadd (fadd (fneg (fmul (Fin 2) n_inc))
                         (Fin (affine_penalty (a g) (b g) (c g))))
                   (Fin (Q g / (5 / 100))))
             (fmul (Fin (INR (length (X d))))
                   (flog (fsub (fdiv maximum minimum) (Fin 1)))) in
      fadd error penalty.

Definition simple_fit (p : list R) (ex : fit_extra) (d : fit_data)
  (a b c : R) : Result npfloat :=
  let* g := parse_args p ex a b c in
  if infeasible g then Ok PInf
  else
    let* st := fit_loop g d in
    match st with
    | Returned v => Ok v
    | Running teo include => Ok (score g d teo include)
    end.

End Model.

(* ================================================================== *)
(** ** The main loop: one scan, cut by cut *)

Section Pipeline.

Variable ext : Externals.

(** A track once the main block has rotated, shifted and centred the
    table: position, diameter, and whether it passes the contrast and
    eccentricity thresholds. *)
Record track : Type := {
  x_cm : R;
  y_cm : R;
  d_um : R;
  hicontrast : bool
}.

(** What the main block fixes for a scan before it loops over the cuts:
    magnification, aperture radius and pitch in cm (the pitch after a zero
    has been replaced), etch time, the [VIEW_RADIUS] it assigns from the
    tracks, and the tracks. *)
Record scan : Type := {
  M : R;
  rA : R;
  sA : R;
  etch_time : R;
  VIEW_RADIUS : R;
  track_list : list track
}.

Definition scan_r0 (sc : scan) : R := (M sc + 1) * rA sc.
Definition scan_s0 (sc : scan) : R := (M sc + 1) * sA sc.
Definition scan_r_img (sc : scan) : R :=
  SPREAD * scan_r0 sc + M sc * OBJECT_SIZE.
Definition scan_n_bins (sc : scan) : Z :=
  Z.min 1000 (py_int (RESOLUTION / (OBJECT_SIZE * M sc) * scan_r_img sc)).

(** [(bins[:-1] + bins[1:])/2]. *)
Definition bin_centers (bins : list R) : list R :=
  map2 (fun lo hi => (lo + hi) / 2) (removelast bins) (tl bins).

(** [bins[1] - bins[0]]. *)
Definition bin_width (bins : list R) : Result R :=
  let* b1 := index bins 1 in
  let* b0 := index bins 0 in
  Ok (b1 - b0).

(** The detector grid (CR39 coordinates centred at the origin). *)
Definition detector_bins (V : R) (n_bins : Z) : Result (list R) :=
  np_linspace (- V) V (n_bins + 1).

(** The grid of one combined penumbral image, around the fitted centre. *)
Definition image_bins (r_img : R) (n_bins : Z) (x0 : R) : Result (list R) :=
  np_linspace (x0 - r_img) (x0 + r_img) (n_bins + 1).

Definition odd_kernel_size (r0 dxI : R) : Z :=
  let kernel_size := (py_int (2 * SPREAD * r0 / dxI) + 1)%Z in
  if (kernel_size mod 2 =? 0)%Z then (kernel_size + 1)%Z else kernel_size.

(** The kernel grid, measured from the centre of the umbra. *)
Definition kernel_bins (dxI : R) (kernel_size : Z) : Result (list R) :=
  np_linspace (- dxI * IZR kernel_size / 2) (dxI * IZR kernel_size / 2)
    (kernel_size + 1).

(** The source grid: [xI_bins[kernel_size//2:-(kernel_size//2)]/M]. *)
Definition source_bins (xI_bins : list R) (kernel_size : Z) (M : R) : list R :=
  map (fun x => x / M)
      (py_slice xI_bins (kernel_size / 2) (- (kernel_size / 2)))%Z.

(** Re-binning of the tracks onto the image grid, one histogram per
    aperture-lattice offset that passes the [if]. *)
Definition rebin (V s0 r_img : R) (track_x track_y xI_bins yI_bins : list R)
  (zeros : list npfloat) : list npfloat :=
  fold_left
    (fun N i =>
       let dy := lattice_dy s0 i in
       fold_left
         (fun N j =>
            let dx := lattice_dx s0 i j in
            if Rle_dec (np_hypot dx dy + r_img) V
            then map2 fadd N
                   (histogram2d ext track_x track_y
                      (map (fun x => x + dx) xI_bins)
                      (map (fun y => y + dy) yI_bins))
            else N)
         (py_range (-6) 6) N)
    (py_range (-6) 6) zeros.

(** The radii at which one pass of the kernel loop evaluates the forward
    model; [dx] and [dy] are the loop variables of that pass. *)
Definition kernel_pass_radii (XK YK : list R) (dxK dyK : R) (dx dy : R)
  : list R :=
  map2 (fun x y => np_hypot (x + dxK) (y + dyK)) XK YK.

(** The pairs [(dx, dy)] the two kernel loops run through. *)
Definition kernel_passes (dxK dyK : R) : list (R * R) :=
  flat_map (fun dx => map (fun dy => (dx, dy)) [- dyK / 3; 0; dyK / 3])
           [- dxK / 3; 0; dxK / 3].

(** The kernel before normalisation. *)
Definition kernel_sum (n_bins : Z) (XK YK : list R) (dxK dyK : R)
  (Q r0 r_img e_min e_max : R) : Result (list npfloat) :=
  fold_left
    (fun acc pass =>
       let* penumbral_kernel := acc in
       let* p :=
         simple_penumbra ext n_bins
           (kernel_pass_radii XK YK dxK dyK (fst pass) (snd pass))
           0 Q r0 r_img (Fin 0) (Fin 1) e_min e_max in
       Ok (map2 fadd penumbral_kernel p))
    (kernel_passes dxK dyK)
    (Ok (map (fun _ => Fin 0) XK)).

Definition build_kernel (n_bins : Z) (XK YK : list R)
  (dxK dyK : R) (Q r0 r_img e_min e_max : R) : Result (list npfloat) :=
  let* k := kernel_sum n_bins XK YK dxK dyK Q r0 r_img e_min e_max in
  Ok (map (fun v => fdiv v (np_sum k)) k).

(** Distance of every image pixel from the fitted centre. *)
Definition radius_from (XI YI : list R) (x0 y0 : R) : list R :=
  map2 (fun x y => np_hypot (x - x0) (y - y0)) XI YI.

(** The two-step data mask: finite counts with a kernel reach between the
    two quantiles, then cropped at the convex hull of the pixels that
    have counts. *)
Definition data_mask (N reach : list npfloat) (reach_max : npfloat)
  (penumbra_low penumbra_hih : npfloat) (XI YI : list R) : list bool :=
  let data_bins :=
    map2 (fun n r =>
            isfinite n && fgt (fdiv r reach_max) penumbra_low
            && flt (fdiv r reach_max) penumbra_hih)
         N reach in
  let pixels := combine XI YI in
  let lit := map (fun n => fgt n (Fin 0)) N in
  let outside := outside_hull ext (select lit pixels) pixels in
  map2 (fun keep drop => keep && negb drop) data_bins
       (map2 (fun n o => feqb n (Fin 0) && o) N outside).

(** The kernel divided by its maximum, and a quantile of that profile. *)
Definition kernel_profile (penumbral_kernel : list npfloat)
  (kernel_max : npfloat) : list npfloat :=
  map (fun k => fdiv k kernel_max) penumbral_kernel.

Definition profile_quantile (penumbral_kernel : list npfloat)
  (kernel_max : npfloat) (q : R) : npfloat :=
  np_quantile ext (kernel_profile penumbral_kernel kernel_max) q.

(** [reach]: the full convolution of an all-ones source image with the
    kernel. *)
Definition kernel_reach (penumbral_kernel : list npfloat)
  (shapeS shapeK : nat * nat) : list npfloat :=
  convolve2d_full ext shapeS
    (map (fun _ => Fin 1) (seq 0 (fst shapeS * snd shapeS)))
    shapeK penumbral_kernel.

(** Lines 370 to 374: thresholds, reach and mask from the counts, the
    kernel and the shapes of the source and kernel grids. *)
Definition build_data_bins (N penumbral_kernel : list npfloat)
  (shapeS shapeK : nat * nat) (XI YI : list R) : Result (list bool) :=
  let* kernel_max := np_max penumbral_kernel in
  let penumbra_low := profile_quantile penumbral_kernel kernel_max (5 / 100) in
  let penumbra_hih :=
    profile_quantile penumbral_kernel kernel_max (70 / 100) in
  let reach := kernel_reach penumbral_kernel shapeS shapeK in
  let* reach_max := np_max reach in
  Ok (data_mask N reach reach_max penumbra_low penumbra_hih XI YI).

(** The variables of the main block that survive from one cut to the
    next. *)
Record run_state : Type := {
  Q_fit : option R;
  image_layers : list (list npfloat);
  x_layers : list (list R);
  y_layers : list (list R)
}.

(** Everything a cut has computed when it calls the deconvolver. *)
Record prepared : Type := {
  fit_x0 : R;
  fit_y0 : R;
  fit_δ : R;
  fit_Q : R;
  counts : list npfloat;
  background : npfloat;
  kernel : list npfloat;
  guess : list npfloat;
  where_mask : list bool;
  xS : list R;
  yS : list R;
  XS : list R;
  YS : list R
}.

Definition clip (x lo hi : R) : R := Rmin hi (Rmax lo x).

(** Lines 284 to 374 for one cut; [None] when the cut has no track.  The
    detector grid of lines 266 to 269 is built first, as in the script.
    With [ASK_FOR_HELP = False] the fit starts at [(x0, y0) = (0, 0)]. *)
Definition prepare_cut (sc : scan) (Q : option R) (e_out_bounds : R * R)
  : Result (option prepared) :=
  let r0 := scan_r0 sc in
  let s0 := scan_s0 sc in
  let r_img := scan_r_img sc in
  let n_bins := scan_n_bins sc in
  let V := VIEW_RADIUS sc in
  let D_out := diameter_D ext e_out_bounds (etch_time sc) in
  let d_bounds := (snd D_out, fst D_out) in
  let e_in_bounds :=
    (clip (fst e_out_bounds + 2) 0 12, clip (snd e_out_bounds + 2) 0 12) in
  let chosen :=
    filter (fun t =>
              hicontrast t && Rleb (fst d_bounds) (d_um t)
              && Rltb (d_um t) (snd d_bounds))
           (track_list sc) in
  let track_x := map x_cm chosen in
  let track_y := map y_cm chosen in
  let* xC_bins := detector_bins V n_bins in
  if (length track_x <=? 0)%nat then Ok None
  else
    let xC := bin_centers xC_bins in
    let '(XC, YC) := meshgrid_ij xC xC in
    let N := histogram2d ext track_x track_y xC_bins xC_bins in
    let* _ := py_assert (length N =? length XC)%nat in
    let x0 := 0 in
    let y0 := 0 in
    let data := {| s0 := s0; r_img := r_img; min_max := None;
                   X := XC; Y := YC; exp_data := N;
                   e_min := fst e_in_bounds; e_max := snd e_in_bounds |} in
    let* fit :=
      match Q with
      | None =>
          match
            minimize ext
              (fun p => simple_fit ext V n_bins p (RadiusOnly r0) data 1 0 1)
              [ [x0 + r_img / 2; y0; OBJECT_SIZE * M sc / 3; 1 / 10];
                [x0 - r_img / 2; y0 + r_img / 2; OBJECT_SIZE * M sc / 3;
                 1 / 10];
                [x0 - r_img / 2; y0 - r_img / 2; OBJECT_SIZE * M sc / 3;
                 1 / 10];
                [x0; y0; OBJECT_SIZE * M sc / 2; 1 / 10];
                [x0; y0; OBJECT_SIZE * M sc / 3; 19 / 100] ]
          with
          | [x0; y0; δ; Q] => Ok (x0, y0, δ, Q)
          | _ => Raise ValueError
          end
      | Some Q =>
          match
            minimize ext
              (fun p =>
                 simple_fit ext V n_bins p (ChargeAndRadius Q r0) data 1 0 1)
              [ [x0 + r_img / 2; y0; OBJECT_SIZE * M sc / 3];
                [x0 - r_img / 2; y0 + r_img / 2; OBJECT_SIZE * M sc / 3];
                [x0 - r_img / 2; y0 - r_img / 2; OBJECT_SIZE * M sc / 3];
                [x0; y0; OBJECT_SIZE * M sc / 2] ]
          with
          | [x0; y0; δ] => Ok (x0, y0, δ, Q)
          | _ => Raise ValueError
          end
      end in
    let '(x0, y0, δ, Q) := fit in
    let* xI_bins := image_bins r_img n_bins x0 in
    let* yI_bins := image_bins r_img n_bins y0 in
    let* dxI := bin_width xI_bins in
    let* dyI := bin_width yI_bins in
    let xI := bin_centers xI_bins in
    let yI := bin_centers yI_bins in
    let '(XI, YI) := meshgrid_ij xI yI in
    let N := rebin V s0 r_img track_x track_y xI_bins yI_bins
               (map (fun _ => Fin 0) XI) in
    let kernel_size := odd_kernel_size r0 dxI in
    let* xK_bins := kernel_bins dxI kernel_size in
    let* yK_bins := kernel_bins dyI kernel_size in
    let* dxK := bin_width xK_bins in
    let* dyK := bin_width yK_bins in
    let '(XK, YK) := meshgrid_ij (bin_centers xK_bins) (bin_centers yK_bins) in
    let xS_bins := source_bins xI_bins kernel_size (M sc) in
    let yS_bins := source_bins yI_bins kernel_size (M sc) in
    let* dxS := bin_width xS_bins in
    let* dyS := bin_width yS_bins in
    let xS := bin_centers xS_bins in
    let yS := bin_centers yS_bins in
    let '(XS, YS) := meshgrid_ij xS yS in
    let* penumbral_kernel :=
      build_kernel n_bins XK YK dxK dyK Q r0 r_img
        (fst e_in_bounds) (snd e_in_bounds) in
    let rI := radius_from XI YI x0 y0 in
    let background :=
      np_average ext N (map (fun r => Rltb ((r_img + r0) / 2) r) rI) in
    let umbra := np_average ext N (map (fun r => Rltb r (r0 / 2)) rI) in
    let* D :=
      simple_penumbra ext n_bins rI δ Q r0 r_img background umbra
        (fst e_in_bounds) (snd e_in_bounds) in
    let* data_bins :=
      build_data_bins N penumbral_kernel (length xS, length yS)
        (length (bin_centers xK_bins), length (bin_centers yK_bins)) XI YI in
    Ok (Some {| fit_x0 := x0; fit_y0 := y0; fit_δ := δ; fit_Q := Q;
                counts := N; background := background;
                kernel := penumbral_kernel; guess := D;
                where_mask := data_bins;
                xS := xS; yS := yS; XS := XS; YS := YS |}).

(** The source pixels the deconvolver may not use: those outside the
    circle around the middle of the source grid. *)
Definition illegal_mask (c : prepared) : Result (list bool) :=
  let* xS0 := index (xS c) 0 in
  let* xS_last := index_last (xS c) in
  let* yS0 := index (yS c) 0 in
  let* yS_last := index_last (yS c) in
  let* xS1 := index (xS c) 1 in
  Ok (map2
        (fun x y =>
           Rleb ((xS_last - xS0) / 2 + (xS1 - xS0))
                (np_hypot (x - (xS0 + xS_last) / 2) (y - (yS0 + yS_last) / 2)))
        (XS c) (YS c)).

(** The test of line 385: [χ2/np.sum(data_bins) >= 2.0]. *)
Definition unreasonable (χ2 : npfloat) (data_bins : list bool) : bool :=
  fge (fdiv χ2 (Fin (INR (count_true data_bins)))) (Fin 2).

(** Lines 376 to 406: deconvolve, then either skip the cut or store its
    map. *)
Definition deconvolve_and_store (st : run_state) (c : prepared)
  : Result run_state :=
  let* illegal := illegal_mask c in
  let '(B, χ2) :=
    gelfgat_deconvolve2d ext
      (map (fun n => fsub n (background c)) (counts c))
      (kernel c) (guess c) THRESHOLD (where_mask c) illegal in
  if unreasonable χ2 (where_mask c) then Ok st
  else
    let B := map (fun v => fmaximum (Fin 0) v) B in
    let* B_max := np_max B in
    Ok {| Q_fit := Q_fit st;
          image_layers := image_layers st ++ [map (fun v => fdiv v B_max) B];
          x_layers := x_layers st ++ [XS c];
          y_layers := y_layers st ++ [YS c] |}.

(** One pass of [for color, (cmap, e_out_bounds) in enumerate(cuts)]. *)
Definition process_cut (sc : scan) (st : run_state) (e_out_bounds : R * R)
  : Result run_state :=
  let* r := prepare_cut sc (Q_fit st) e_out_bounds in
  match r with
  | None => Ok st
  | Some c =>
      deconvolve_and_store
        {| Q_fit := Some (fit_Q c); image_layers := image_layers st;
           x_layers := x_layers st; y_layers := y_layers st |} c
  end.

(** The loop over the cuts of a scan; an exception ends the script. *)
Fixpoint process_cuts (sc : scan) (cuts : list (R * R)) (st : run_state)
  : Result run_state :=
  match cuts with
  | [] => Ok st
  | cut :: rest =>
      let* st' := process_cut sc st cut in
      process_cuts sc rest st'
  end.

Definition initial_state : run_state :=
  {| Q_fit := None; image_layers := []; x_layers := []; y_layers := [] |}.

End Pipeline.

(* ================================================================== *)
(** ** The aperture lattice as a set of offsets

    The two double loops over the lattice ([fit_loop] and [rebin]) test
    each candidate offset inside their body.  The definitions below name
    the candidates and the offsets each test lets through;
    [fit_loop_offsets], [rebin_by_offsets] and [fit_loop_finished] relate
    them to the loops. *)

(** The candidates the two double loops run through, in loop order. *)
Definition lattice_candidates (s0 : R) : list (R * R) :=
  flat_map
    (fun i => map (fun j => (lattice_dx s0 i j, lattice_dy s0 i))
                  (py_range (-6) 6))
    (py_range (-6) 6).

(** The test of the objective: [np.hypot(dx, dy) < VIEW_RADIUS - r_img]. *)
Definition fit_test (V r_img : R) (o : R * R) : bool :=
  Rltb (np_hypot (fst o) (snd o)) (V - r_img).

(** The test of the re-binning loop:
    [np.hypot(dx, dy) + r_img <= VIEW_RADIUS]. *)
Definition rebin_test (V r_img : R) (o : R * R) : bool :=
  Rleb (np_hypot (fst o) (snd o) + r_img) V.

Definition fit_offsets (V s0 r_img : R) : list (R * R) :=
  filter (fit_test V r_img) (lattice_candidates s0).

Definition rebin_offsets (V s0 r_img : R) : list (R * R) :=
  filter (rebin_test V r_img) (lattice_candidates s0).

(** The [include] array the objective has built when its loop ends. *)
Definition include_mask (V : R) (g : fit_params) (d : fit_data)
  : list bool :=
  fold_left (fun inc o => mask_set inc (covered g d (fst o) (snd o)))
            (fit_offsets V (s0 d) (r_img d))
            (map (fun _ => false) (X d)).

(** The same arguments with another observed image. *)
Definition with_exp (d : fit_data) (exp' : list npfloat) : fit_data :=
  {| s0 := s0 d; r_img := r_img d; min_max := min_max d;
     X := X d; Y := Y d; exp_data := exp';
     e_min := e_min d; e_max := e_max d |}.

(* ================================================================== *)
(** ** A concrete choice of the external functions

    Small stand-ins on which the model can be run for examples: a two-point
    brightness profile, an interpolation that always answers [right], a
    deconvolver that returns its initial guess with chi-squared 10, a
    diameter that falls from the upper to the lower energy bound, an
    optimizer that stops at the first vertex of its simplex. *)

Definition sample_externals : Externals :=
  {| get_analytic_brightness := fun _ _ _ _ => ([0; 1], [Fin 1; Fin 0]);
     interp1 := fun _ _ right _ => right;
     linregress := fun _ _ _ => (Fin 1, Fin 0);
     diameter_D := fun e _ => (snd e, fst e);
     histogram2d := fun _ _ xb yb =>
       map (fun _ => Fin 0) (seq 0 ((length xb - 1) * (length yb - 1)));
     minimize := fun _ simplex => hd [] simplex;
     np_average := fun _ _ => Fin 0;
     np_quantile := fun _ q => Fin q;
     convolve2d_full := fun _ _ _ _ => [Fin 1; Fin 2];
     outside_hull := fun _ queries => map (fun _ => false) queries;
     gelfgat_deconvolve2d := fun _ _ D _ _ _ => (D, Fin 10) |}.

(** A scan with one track: magnification 1, aperture radius 1/105 cm, so
    that [r0 = 2/105], [r_img = 0.04] and [n_bins = 100]. *)
Definition sample_scan : scan :=
  {| M := 1; rA := 1 / 105; sA := 1; etch_time := 5; VIEW_RADIUS := 5;
     track_list :=
       [ {| x_cm := 0; y_cm := 0; d_um := 1; hicontrast := true |} ] |}.

(** Arguments of the objective that put no aperture image inside the
    view: the image radius exceeds the view radius. *)
Definition sample_fit_data : fit_data :=
  {| s0 := 1; r_img := 1; min_max := None;
     X := [0]; Y := [0]; exp_data := [Fin 7];
     e_min := 2; e_max := 12 |}.

(** The float64 [(1.0/98)/4]: a quarter of the pixel size [1.0/98] of an
    image of radius 1.0 with 98 bins, as float64 division rounds it (the
    division by 4 is exact). *)
Definition quarter_pixel_blur : R := round_binary64 (1 / 98) / 4.

(** Parameters centred on the detector with that blur. *)
Definition quarter_pixel_params : fit_params :=
  {| x0 := 0; y0 := 0; δ := quarter_pixel_blur; Q := 1 / 10; r0 := 1;
     a := 1; b := 0; c := 1 |}.

(** Arguments of the objective with a single pixel, at [(4, 4)], an image
    radius of 1 and a given brightness range. *)
Definition corner_fit_data : fit_data :=
  {| s0 := 1; r_img := 1; min_max := Some (Fin 1, Fin 3);
     X := [4]; Y := [4]; exp_data := [Fin 7];
     e_min := 2; e_max := 12 |}.

(** A run of [prepare_cut] that reaches the deconvolver with a cut that
    satisfies [P]. *)
Definition prepared_with (P : prepared -> Prop)
  (r : Result (option prepared)) : Prop :=
  match r with
  | Ok (Some c) => P c
  | _ => False
  end.

(* ================================================================== *)
(** ** More of the script: argument shapes, the default pitch, the
    composite plot *)

(** The four shapes of arguments [simple_fit] accepts (lines 165 to 173):
    the length of the parameter vector together with the number of
    positional arguments. *)
Definition supported_shape (p : list R) (ex : fit_extra) : bool :=
  match length p, ex with
  | 3%nat, ChargeAndRadius _ _ => true
  | 4%nat, NoExtra => true
  | 4%nat, RadiusOnly _ => true
  | 7%nat, RadiusOnly _ => true
  | _, _ => false
  end.

(** Line 223: a catalogue pitch of zero is replaced by six view radii over
    [M + 1], with the value the global [VIEW_RADIUS] has when the row is
    read. *)
Definition aperture_pitch (VIEW_RADIUS M sA : R) : R :=
  if Req_dec_T sA 0 then 6 * VIEW_RADIUS / (M + 1) else sA.

(** [np.argmax] of a raveled array: the first [nan] if there is one, else
    the first largest entry; numpy raises on an empty array. *)
Fixpoint argmax_from (best : npfloat) (best_i i : nat) (l : list npfloat)
  : nat :=
  match l with
  | [] => best_i
  | v :: l' =>
      if isnan best then best_i
      else if isnan v || flt best v then argmax_from v i (S i) l'
      else argmax_from best best_i (S i) l'
  end.

Definition np_argmax (l : list npfloat) : Result nat :=
  match l with
  | [] => Raise ValueError
  | v :: l' => Ok (argmax_from v 0 1 l')
  end.

(** Lines 426 to 433: with more than one layer, the composite plot is
    centred on the brightest pixel of layer 0 and draws layers 1 and 3;
    the result holds the coordinates (in microns) and the image handed to
    each of the two [contourf] calls. *)
Definition nest_plot_layers (st : run_state)
  : Result (option ((list R * list R * list npfloat)
                    * (list R * list R * list npfloat))) :=
  if (1 <? length (image_layers st))%nat then
    let* x_layer0 := index (x_layers st) 0 in
    let* image0 := index (image_layers st) 0 in
    let* k := np_argmax image0 in
    let* x0 := index x_layer0 k in
    let* y_layer0 := index (y_layers st) 0 in
    let* y0 := index y_layer0 k in
    let* x1 := index (x_layers st) 1 in
    let* y1 := index (y_layers st) 1 in
    let* image1 := index (image_layers st) 1 in
    let* x3 := index (x_layers st) 3 in
    let* y3 := index (y_layers st) 3 in
    let* image3 := index (image_layers st) 3 in
    Ok (Some ((map (fun x => (x - x0) / (1 / 10000)) x1,
               map (fun y => (y - y0) / (1 / 10000)) y1, image1),
              (map (fun x => (x - x0) / (1 / 10000)) x3,
               map (fun y => (y - y0) / (1 / 10000)) y3, image3)))
  else Ok None.

(** A stored brightness is [nan] or a number between 0 and 1. *)
Definition unit_or_nan (v : npfloat) : Prop :=
  v = NaN \/ exists x, v = Fin x /\ 0 <= x <= 1.

(** The sample externals with a deconvolver that returns a map of ones
    and a chi-squared of zero. *)
Definition accepting_externals : Externals :=
  {| get_analytic_brightness := get_analytic_brightness sample_externals;
     interp1 := interp1 sample_externals;
     linregress := linregress sample_externals;
     diameter_D := diameter_D sample_externals;
     histogram2d := histogram2d sample_externals;
     minimize := minimize sample_externals;
     np_average := np_average sample_externals;
     np_quantile := np_quantile sample_externals;
     convolve2d_full := convolve2d_full sample_externals;
     outside_hull := outside_hull sample_externals;
     gelfgat_deconvolve2d :=
       fun _ _ _ _ _ illegal => (map (fun _ => Fin 1) illegal, Fin 0) |}.

(** The sample scan with an aperture of radius zero. *)
Definition zero_aperture_scan : scan :=
  {| M := 1; rA := 0; sA := 1; etch_time := 5; VIEW_RADIUS := 5;
     track_list :=
       [ {| x_cm := 0; y_cm := 0; d_um := 1; hicontrast := true |} ] |}.

(** Parameters centred on the pixel of [corner_fit_data], without blur. *)
Definition corner_params : fit_params :=
  {| x0 := 4; y0 := 4; δ := 0; Q := 1 / 10; r0 := 1;
     a := 1; b := 0; c := 1 |}.


(** A cut as [prepare_cut] could hand it to the deconvolver: a source grid
    of two by two pixels around the origin. *)
Definition sample_prepared : prepared :=
  {| fit_x0 := 0; fit_y0 := 0; fit_δ := 0; fit_Q := 1 / 10;
     counts := [Fin 3]; background := Fin 1; kernel := [Fin 1];
     guess := [Fin 1]; where_mask := [true];
     xS := [0; 1]; yS := [0; 1];
     XS := [0; 0; 1; 1]; YS := [0; 1; 0; 1] |}.

(** A state with two stored layers of two pixels each. *)
Definition two_layer_state : run_state :=
  {| Q_fit := Some (1 / 10);
     image_layers := [[Fin 1; Fin 0]; [Fin 0; Fin 1]];
     x_layers := [[0; 0]; [0; 0]];
     y_layers := [[0; 1]; [0; 1]] |}.

(* ================================================================== *)
(** * Properties *)

(** Decide the comparisons of concrete reals that an evaluation meets. *)
Ltac decide_reals :=
  repeat
    match goal with
    | |- context [Rlt_dec ?a ?b] => destruct (Rlt_dec a b); try lra
    | |- context [Rle_dec ?a ?b] => destruct (Rle_dec a b); try lra
    | |- context [Req_dec_T ?a ?b] => destruct (Req_dec_T a b); try lra
    end.

(** Step through a successful run of monadic code. *)
Ltac step_ok H :=
  match type of H with
  | bind ?m _ = Ok _ =>
      let E := fresh "E" in
      destruct m eqn:E; cbn [bind] in H; [|discriminate H]
  | (if ?b then _ else _) = Ok _ => destruct b eqn:?; [try discriminate H|]
  | (let '(_, _) := ?p in _) = Ok _ => destruct p eqn:?
  | match ?m with _ => _ end = Ok _ => destruct m eqn:?; try discriminate H
  end.

(* ------------------------------------------------------------------ *)
(** ** Comparisons, ranges and loops *)

Lemma Rltb_spec (a b : R) : reflect (a < b) (Rltb a b).
Proof. unfold Rltb. destruct (Rlt_dec a b); now constructor. Qed.

Lemma Rleb_spec (a b : R) : reflect (a <= b) (Rleb a b).
Proof. unfold Rleb. destruct (Rle_dec a b); now constructor. Qed.

Lemma Reqb_spec (a b : R) : reflect (a = b) (Reqb a b).
Proof. unfold Reqb. destruct (Req_dec_T a b); now constructor. Qed.

Lemma Rltb_true (a b : R) : Rltb a b = true <-> a < b.
Proof. destruct (Rltb_spec a b); split; intros; auto; discriminate. Qed.

Lemma Rltb_false (a b : R) : Rltb a b = false <-> b <= a.
Proof. destruct (Rltb_spec a b); split; intros; auto; try discriminate; lra. Qed.

Lemma Rleb_true (a b : R) : Rleb a b = true <-> a <= b.
Proof. destruct (Rleb_spec a b); split; intros; auto; discriminate. Qed.

Lemma Rleb_false (a b : R) : Rleb a b = false <-> b < a.
Proof. destruct (Rleb_spec a b); split; intros; auto; try discriminate; lra. Qed.

Lemma Reqb_true (a b : R) : Reqb a b = true <-> a = b.
Proof. destruct (Reqb_spec a b); split; intros; auto; discriminate. Qed.

Lemma Reqb_false (a b : R) : Reqb a b = false <-> a <> b.
Proof.
  destruct (Reqb_spec a b); split; intros; auto; try discriminate.
  contradiction.
Qed.

Lemma py_range_In (lo hi z : Z) : In z (py_range lo hi) <-> (lo <= z < hi)%Z.
Proof.
  unfold py_range. rewrite in_map_iff. split.
  - intros (k & <- & Hk). apply in_seq in Hk. lia.
  - intros Hz. exists (Z.to_nat (z - lo)). split; [lia|].
    apply in_seq. lia.
Qed.

Lemma np_hypot_nonneg (x y : R) : 0 <= np_hypot x y.
Proof. apply sqrt_pos. Qed.

Lemma np_hypot_0_0 : np_hypot 0 0 = 0.
Proof.
  unfold np_hypot. replace (0 * 0 + 0 * 0) with 0 by ring. apply sqrt_0.
Qed.

(** A double loop whose body runs under a test is a single loop over the
    candidates that pass the test. *)
Lemma nested_loop_filter {S D : Type} (pt : Z -> Z -> D) (test : D -> bool)
  (body : D -> S -> S) (js is_ : list Z) (st : S) :
  fold_left
    (fun st i =>
       fold_left (fun st j => if test (pt i j) then body (pt i j) st else st)
                 js st)
    is_ st
  = fold_left (fun st o => body o st)
      (filter test (flat_map (fun i => map (pt i) js) is_)) st.
Proof.
  revert st. induction is_ as [|i is_ IH]; intros st; simpl; [reflexivity|].
  rewrite filter_app, fold_left_app, IH. f_equal.
  clear IH. revert st.
  induction js as [|j js IHj]; intros st; simpl; [reflexivity|].
  destruct (test (pt i j)); simpl; apply IHj.
Qed.

Lemma lattice_candidates_In (s0 dx dy : R) :
  In (dx, dy) (lattice_candidates s0) <->
  exists i j : Z, (-6 <= i < 6)%Z /\ (-6 <= j < 6)%Z /\
                  dx = lattice_dx s0 i j /\ dy = lattice_dy s0 i.
Proof.
  unfold lattice_candidates. rewrite in_flat_map. split.
  - intros (i & Hi & Hin). apply in_map_iff in Hin as (j & Heq & Hj).
    apply py_range_In in Hi, Hj. inversion Heq; subst. exists i, j. auto.
  - intros (i & j & Hi & Hj & -> & ->). exists i.
    split; [apply py_range_In; lia|].
    apply in_map_iff. exists j. split; [reflexivity|apply py_range_In; lia].
Qed.

Lemma lattice_candidates_length (s0 : R) :
  length (lattice_candidates s0) = 144%nat.
Proof. reflexivity. Qed.

Lemma fold_left_pointwise {S A : Type} (f g : S -> A -> S) (l : list A)
  (st : S) :
  (forall s x, f s x = g s x) -> fold_left f l st = fold_left g l st.
Proof.
  intros Hfg. revert st.
  induction l as [|x l IH]; intros st; simpl; [reflexivity|].
  rewrite Hfg. apply IH.
Qed.

Section Loops.
Variable ext : Externals.

(** The objective's double loop is a fold over [fit_offsets]. *)
Lemma fit_loop_offsets (V : R) (n : Z) (g : fit_params) (d : fit_data) :
  fit_loop ext V n g d
  = fold_left (fun st o => bind st (add_aperture ext n g d (fst o) (snd o)))
      (fit_offsets V (s0 d) (r_img d))
      (Ok (Running (map (fun _ => Fin 0) (X d)) (map (fun _ => false) (X d)))).
Proof.
  unfold fit_loop, fit_offsets, lattice_candidates.
  rewrite <- (nested_loop_filter
                (fun i j => (lattice_dx (s0 d) i j, lattice_dy (s0 d) i))
                (fit_test V (r_img d))
                (fun o st => bind st (add_aperture ext n g d (fst o) (snd o)))).
  apply fold_left_pointwise. intros st i.
  apply fold_left_pointwise. intros st' j.
  unfold fit_test, Rltb. simpl.
  destruct (Rlt_dec _ _); reflexivity.
Qed.

(** The re-binning double loop is a fold over [rebin_offsets]. *)
Lemma rebin_by_offsets (V s0 r_img : R)
  (track_x track_y xI_bins yI_bins : list R) (zeros : list npfloat) :
  rebin ext V s0 r_img track_x track_y xI_bins yI_bins zeros
  = fold_left
      (fun N o =>
         map2 fadd N
           (histogram2d ext track_x track_y
              (map (fun x => x + fst o) xI_bins)
              (map (fun y => y + snd o) yI_bins)))
      (rebin_offsets V s0 r_img) zeros.
Proof.
  unfold rebin, rebin_offsets, lattice_candidates.
  rewrite <- (nested_loop_filter
                (fun i j => (lattice_dx s0 i j, lattice_dy s0 i))
                (rebin_test V r_img)
                (fun o N =>
                   map2 fadd N
                     (histogram2d ext track_x track_y
                        (map (fun x => x + fst o) xI_bins)
                        (map (fun y => y + snd o) yI_bins)))).
  apply fold_left_pointwise. intros st i.
  apply fold_left_pointwise. intros st' j.
  unfold rebin_test, Rleb. simpl.
  destruct (Rle_dec _ _); reflexivity.
Qed.
End Loops.

Lemma fit_offsets_In (V s0 r_img dx dy : R) :
  In (dx, dy) (fit_offsets V s0 r_img) <->
  exists i j : Z, (-6 <= i <= 5)%Z /\ (-6 <= j <= 5)%Z /\
                  dx = lattice_dx s0 i j /\ dy = lattice_dy s0 i /\
                  np_hypot dx dy + r_img < V.
Proof.
  unfold fit_offsets. rewrite filter_In, lattice_candidates_In.
  unfold fit_test. rewrite Rltb_true. simpl. split.
  - intros ((i & j & Hi & Hj & Hx & Hy) & Hlt). exists i, j.
    repeat split; try lia; auto. lra.
  - intros (i & j & Hi & Hj & Hx & Hy & Hlt). split; [|lra].
    exists i, j. repeat split; try lia; auto.
Qed.

Lemma rebin_offsets_In (V s0 r_img dx dy : R) :
  In (dx, dy) (rebin_offsets V s0 r_img) <->
  exists i j : Z, (-6 <= i <= 5)%Z /\ (-6 <= j <= 5)%Z /\
                  dx = lattice_dx s0 i j /\ dy = lattice_dy s0 i /\
                  np_hypot dx dy + r_img <= V.
Proof.
  unfold rebin_offsets. rewrite filter_In, lattice_candidates_In.
  unfold rebin_test. rewrite Rleb_true. simpl. split.
  - intros ((i & j & Hi & Hj & Hx & Hy) & Hlt). exists i, j.
    repeat split; try lia; auto.
  - intros (i & j & Hi & Hj & Hx & Hy & Hlt). split; [|lra].
    exists i, j. repeat split; try lia; auto.
Qed.

Lemma lattice_origin (s0 : R) : lattice_dx s0 0 0 = 0 /\ lattice_dy s0 0 = 0.
Proof.
  unfold lattice_dx, lattice_dy, Rdiv.
  replace (2 * 0 + 0 mod 2)%Z with 0%Z by reflexivity.
  split; ring.
Qed.

(* ------------------------------------------------------------------ *)
(** ** numpy helpers *)

Lemma np_linspace_ok (a b : R) (num : Z) :
  (0 <= num)%Z ->
  exists l, np_linspace a b num = Ok l /\ length l = Z.to_nat num /\
    forall k, (k < Z.to_nat num)%nat ->
      nth_error l k = Some (a + INR k * ((b - a) / INR (Z.to_nat num - 1))).
Proof.
  intros Hnum. unfold np_linspace.
  destruct (num <? 0)%Z eqn:E; [lia|].
  eexists. split; [reflexivity|]. split.
  - now rewrite length_map, length_seq.
  - intros k Hk.
    rewrite nth_error_map, nth_error_nth' with (d := 0%nat)
      by (now rewrite length_seq).
    rewrite seq_nth by assumption. reflexivity.
Qed.

Lemma np_linspace_raises (a b : R) (num : Z) (e : exn) :
  np_linspace a b num = Raise e -> e = ValueError.
Proof.
  unfold np_linspace. destruct (num <? 0)%Z; congruence.
Qed.

Lemma py_int_ge_1 (x : R) : 1 <= x -> (1 <= py_int x)%Z.
Proof.
  intros Hx. unfold py_int. destruct (Rle_dec 0 x) as [_|]; [|lra].
  destruct (base_Int_part x) as [_ Hlow].
  apply Z.lt_pred_le. simpl. apply lt_IZR. lra.
Qed.

Lemma py_int_le (x : R) : 0 <= x -> IZR (py_int x) <= x.
Proof.
  intros Hx. unfold py_int. destruct (Rle_dec 0 x) as [_|]; [|lra].
  apply base_Int_part.
Qed.

Lemma ceilZ_ge (x : R) : x <= IZR (ceilZ x).
Proof.
  unfold ceilZ. rewrite opp_IZR.
  destruct (base_Int_part (- x)) as [Hle _]. lra.
Qed.

Lemma np_arange_length (start stop step : R) :
  length (np_arange start stop step)
  = Z.to_nat (ceilZ ((stop - start) / step)).
Proof. unfold np_arange. now rewrite length_map, length_seq. Qed.

Lemma np_max_ok (l : list npfloat) :
  l <> [] -> exists m, np_max l = Ok m.
Proof. destruct l; [congruence|]. intros _. eexists. reflexivity. Qed.

Lemma np_max_raises (l : list npfloat) (e : exn) :
  np_max l = Raise e -> e = ValueError.
Proof. destruct l; simpl; congruence. Qed.

Lemma np_convolve_same_ok (a v : list npfloat) :
  a <> [] -> v <> [] ->
  exists c, np_convolve_same a v = Ok c /\
            length c = Nat.max (length a) (length v).
Proof.
  intros Ha Hv. destruct a as [|x a]; [congruence|].
  destruct v as [|y v]; [congruence|].
  eexists. split; [reflexivity|].
  now rewrite length_map, length_seq.
Qed.

Lemma np_convolve_same_raises (a v : list npfloat) (e : exn) :
  np_convolve_same a v = Raise e -> e = ValueError.
Proof. destruct a, v; simpl; congruence. Qed.

Lemma nonempty_length {A : Type} (l : list A) : (0 < length l)%nat -> l <> [].
Proof. destruct l; simpl; [lia|congruence]. Qed.

Section Interpolation.
Variable ext : Externals.
Variable n_bins : Z.

Lemma np_interp_ok (x xp : list R) (fp : list npfloat) (right : npfloat) :
  xp <> [] -> length xp = length fp ->
  exists w, np_interp ext x xp fp right = Ok w /\ length w = length x.
Proof.
  intros Hxp Hlen. unfold np_interp.
  destruct xp as [|x0 xp]; [congruence|]. simpl length at 1.
  simpl Nat.eqb at 1. cbv iota.
  rewrite Hlen, Nat.eqb_refl. simpl.
  eexists. split; [reflexivity|]. now rewrite length_map.
Qed.

Lemma np_interp_inv (x xp : list R) (fp : list npfloat) (right : npfloat)
  (w : list npfloat) :
  np_interp ext x xp fp right = Ok w -> length w = length x.
Proof.
  unfold np_interp. destruct (length xp =? 0)%nat; [discriminate|].
  destruct (negb _); [discriminate|].
  intros [= <-]. now rewrite length_map.
Qed.

Lemma np_interp_raises (x xp : list R) (fp : list npfloat) (right : npfloat)
  (e : exn) :
  np_interp ext x xp fp right = Raise e -> e = ValueError.
Proof.
  unfold np_interp. destruct (length xp =? 0)%nat; [congruence|].
  destruct (negb _); congruence.
Qed.

Lemma rescale_profile_ok (r r_point : list R) (penumbra : list npfloat)
  (minimum maximum : npfloat) :
  r_point <> [] -> length r_point = length penumbra ->
  exists v, rescale_profile ext r r_point penumbra minimum maximum = Ok v /\
            length v = length r.
Proof.
  intros Hne Hlen. unfold rescale_profile.
  destruct (np_max_ok penumbra) as [peak ->].
  { destruct penumbra; [|congruence]. destruct r_point; simpl in *; congruence. }
  simpl.
  destruct (np_interp_ok r r_point (map (fun p => fdiv p peak) penumbra) (Fin 0))
    as (w & -> & Hw); auto.
  { now rewrite length_map. }
  simpl. eexists. split; [reflexivity|]. now rewrite length_map.
Qed.

Lemma rescale_profile_raises (r r_point : list R) (penumbra : list npfloat)
  (minimum maximum : npfloat) (e : exn) :
  rescale_profile ext r r_point penumbra minimum maximum = Raise e ->
  e = ValueError.
Proof.
  unfold rescale_profile.
  destruct (np_max penumbra) as [peak|e'] eqn:Hmax; simpl.
  - destruct (np_interp _ _ _ _ _) as [w|e'] eqn:Hw; simpl; [discriminate|].
    intros [= <-]. eapply np_interp_raises; eauto.
  - intros [= <-]. eapply np_max_raises; eauto.
Qed.
End Interpolation.

(* ------------------------------------------------------------------ *)
(** ** Rounding to float64 *)

Lemma Int_part_floor (t : R) (f : Z) :
  IZR f <= t < IZR f + 1 -> Int_part t = f.
Proof. intros H. symmetry. apply Int_part_spec. lra. Qed.

Lemma rne_down (t : R) (f : Z) :
  IZR f <= t < IZR f + 1 / 2 -> rne t = f.
Proof.
  intros H. unfold rne. rewrite (Int_part_floor t f) by lra.
  destruct (Rlt_dec (t - IZR f) (1 / 2)); [reflexivity|lra].
Qed.

Lemma rne_bounds (t : R) (lo hi : Z) :
  IZR lo <= t <= IZR hi -> (lo <= rne t <= hi)%Z.
Proof.
  intros [Hlo Hhi]. unfold rne.
  destruct (base_Int_part t) as [Hf1 Hf2].
  set (f := Int_part t) in *.
  assert (Hflo : (lo <= f)%Z).
  { apply Z.lt_succ_r. apply lt_IZR. rewrite succ_IZR. lra. }
  assert (Hfhi : (f <= hi)%Z) by (apply le_IZR; lra).
  destruct (Rlt_dec (t - IZR f) (1 / 2)); [lia|].
  assert (Hlt : (f < hi)%Z) by (apply lt_IZR; lra).
  destruct (Rlt_dec (1 / 2) (t - IZR f)); [lia|].
  destruct (Z.even f); lia.
Qed.

Lemma ln_powerRZ_2 (e : Z) : ln (powerRZ 2 e) = IZR e * ln 2.
Proof.
  destruct e as [|p|p]; cbn [powerRZ].
  - rewrite ln_1. ring.
  - rewrite ln_pow by lra. now rewrite INR_IZR_INZ, positive_nat_Z.
  - rewrite ln_Rinv by (apply pow_lt; lra).
    rewrite ln_pow by lra. rewrite INR_IZR_INZ, positive_nat_Z.
    change (Z.neg p) with (- Z.pos p)%Z. rewrite opp_IZR. ring.
Qed.

Lemma ln_2_pos : 0 < ln 2.
Proof. rewrite <- ln_1. apply ln_increasing; lra. Qed.

Lemma powerRZ_2_le (a e : Z) : (a <= e)%Z -> powerRZ 2 a <= powerRZ 2 e.
Proof.
  intros Hae. destruct (Rle_lt_dec (powerRZ 2 a) (powerRZ 2 e)) as [|Hc];
    [assumption|].
  apply ln_increasing in Hc; [|apply powerRZ_lt; lra].
  rewrite !ln_powerRZ_2 in Hc. apply IZR_le in Hae.
  pose proof ln_2_pos. nra.
Qed.

Lemma powerRZ_2_neg (k : positive) :
  powerRZ 2 (Z.neg k) = / IZR (2 ^ Z.pos k).
Proof.
  cbn [powerRZ]. f_equal. rewrite pow_IZR. now rewrite positive_nat_Z.
Qed.

(** Turn the negative powers of two of a goal into numerals. *)
Ltac pow2_consts :=
  repeat
    match goal with
    | |- context [powerRZ 2 (Z.neg ?k)] =>
        rewrite (powerRZ_2_neg k);
        let v := eval vm_compute in (2 ^ Z.pos k)%Z in
        change (2 ^ Z.pos k)%Z with v
    end.

Lemma binade_spec (x : R) (e : Z) :
  (-1022 <= e)%Z -> powerRZ 2 e <= Rabs x < powerRZ 2 (e + 1) ->
  binade x = e.
Proof.
  intros He [Hlo Hhi]. unfold binade.
  assert (Hpos : 0 < powerRZ 2 e) by (apply powerRZ_lt; lra).
  pose proof ln_2_pos as H2.
  assert (H1 : IZR e * ln 2 <= ln (Rabs x)).
  { rewrite <- ln_powerRZ_2. destruct Hlo as [Hlo|Hlo].
    - left. apply ln_increasing; assumption.
    - right. now rewrite Hlo. }
  assert (H3 : ln (Rabs x) < (IZR e + 1) * ln 2).
  { rewrite <- plus_IZR, <- ln_powerRZ_2. apply ln_increasing; lra. }
  rewrite (Int_part_floor (ln (Rabs x) / ln 2) e); [lia|].
  split.
  - apply Rmult_le_reg_r with (r := ln 2); [assumption|].
    unfold Rdiv. rewrite Rmult_assoc, Rinv_l by lra. lra.
  - apply Rmult_lt_reg_r with (r := ln 2); [assumption|].
    unfold Rdiv. rewrite Rmult_assoc, Rinv_l by lra. lra.
Qed.

Lemma powerRZ_2_split (e : Z) :
  powerRZ 2 e = powerRZ 2 (e - 52) * IZR (2 ^ 52).
Proof.
  replace e with ((e - 52) + 52)%Z at 1 by lia.
  rewrite powerRZ_add by lra. f_equal.
  change 52%Z with (Z.of_nat 52). rewrite <- pow_powerRZ.
  rewrite <- pow_IZR. reflexivity.
Qed.

(** A number in a binade rounds to a number of the closed binade. *)
Lemma round_binary64_binade (x : R) (e : Z) :
  (-1022 <= e)%Z -> powerRZ 2 e <= x < powerRZ 2 (e + 1) ->
  powerRZ 2 e <= round_binary64 x <= powerRZ 2 (e + 1).
Proof.
  intros He [Hlo Hhi].
  assert (Hpos : 0 < powerRZ 2 e) by (apply powerRZ_lt; lra).
  unfold round_binary64.
  rewrite (binade_spec x e He) by (rewrite Rabs_pos_eq; lra).
  set (ulp := powerRZ 2 (e - 52)).
  assert (Hulp : 0 < ulp) by (apply powerRZ_lt; lra).
  assert (Hlo' : powerRZ 2 e = ulp * IZR (2 ^ 52)) by apply powerRZ_2_split.
  assert (Hhi' : powerRZ 2 (e + 1) = ulp * IZR (2 ^ 53)).
  { rewrite powerRZ_add by lra. rewrite Hlo'.
    change (2 ^ 53)%Z with (2 ^ 52 * 2)%Z. rewrite mult_IZR.
    replace (powerRZ 2 1) with 2 by (simpl; lra). ring. }
  destruct (rne_bounds (x / ulp) (2 ^ 52) (2 ^ 53)) as [H1 H2].
  { split.
    - apply Rmult_le_reg_r with (r := ulp); [assumption|].
      unfold Rdiv. rewrite Rmult_assoc, Rinv_l by lra. lra.
    - apply Rmult_le_reg_r with (r := ulp); [assumption|].
      unfold Rdiv. rewrite Rmult_assoc, Rinv_l by lra. lra. }
  apply IZR_le in H1, H2. rewrite Hlo', Hhi'. split; nra.
Qed.

Lemma round_binary64_nonneg (x : R) : 0 <= x -> 0 <= round_binary64 x.
Proof.
  intros Hx. unfold round_binary64.
  set (ulp := powerRZ 2 (binade x - 52)).
  assert (Hulp : 0 < ulp) by (apply powerRZ_lt; lra).
  destruct (rne_bounds (x / ulp) 0 (up (x / ulp))) as [H1 _].
  { split.
    - apply Rmult_le_pos; [assumption|]. left. now apply Rinv_0_lt_compat.
    - left. apply archimed. }
  apply IZR_le in H1. nra.
Qed.

(** Rounding does not take a number below a power of two it exceeds. *)
Lemma round_binary64_ge_pow (x : R) (a : Z) :
  (-1022 <= a)%Z -> powerRZ 2 a <= x -> powerRZ 2 a <= round_binary64 x.
Proof.
  intros Ha Hx.
  assert (Hpa : 0 < powerRZ 2 a) by (apply powerRZ_lt; lra).
  assert (Hx0 : 0 < x) by lra.
  pose proof ln_2_pos as H2.
  set (e := Int_part (ln x / ln 2)).
  destruct (base_Int_part (ln x / ln 2)) as [He1 He2]. fold e in He1, He2.
  assert (Hlo : IZR e * ln 2 <= ln x).
  { apply Rmult_le_compat_r with (r := ln 2) in He1; [|lra].
    unfold Rdiv in He1. rewrite Rmult_assoc, Rinv_l in He1; lra. }
  assert (Hhi : ln x < (IZR e + 1) * ln 2).
  { assert (H : ln x / ln 2 < IZR e + 1) by lra.
    apply Rmult_lt_compat_r with (r := ln 2) in H; [|lra].
    unfold Rdiv in H. rewrite Rmult_assoc, Rinv_l in H; lra. }
  assert (Hbin : powerRZ 2 e <= x < powerRZ 2 (e + 1)).
  { split.
    - destruct (Rle_lt_dec (powerRZ 2 e) x) as [|Hc]; [assumption|].
      apply ln_increasing in Hc; [|assumption].
      rewrite ln_powerRZ_2 in Hc. lra.
    - destruct (Rle_lt_dec (powerRZ 2 (e + 1)) x) as [Hc|]; [|assumption].
      assert (Hp : 0 < powerRZ 2 (e + 1)) by (apply powerRZ_lt; lra).
      assert (ln (powerRZ 2 (e + 1)) <= ln x).
      { destruct Hc as [Hc|Hc]; [left; now apply ln_increasing|right].
        now rewrite Hc. }
      rewrite ln_powerRZ_2, plus_IZR in H. lra. }
  assert (Hae : (a <= e)%Z).
  { apply Z.lt_succ_r. apply lt_IZR. rewrite succ_IZR.
    assert (IZR a * ln 2 <= ln x).
    { rewrite <- ln_powerRZ_2. destruct Hx as [Hx|Hx].
      - left. now apply ln_increasing.
      - right. now rewrite Hx. }
    nra. }
  destruct (round_binary64_binade x e ltac:(lia) Hbin) as [Hr _].
  apply Rle_trans with (r2 := powerRZ 2 e); [|assumption].
  now apply powerRZ_2_le.
Qed.

(** Rounding down to a given mantissa. *)
Lemma round_binary64_down (x : R) (e m : Z) :
  (-1022 <= e)%Z -> powerRZ 2 e <= Rabs x < powerRZ 2 (e + 1) ->
  IZR m <= x / powerRZ 2 (e - 52) < IZR m + 1 / 2 ->
  round_binary64 x = IZR m * powerRZ 2 (e - 52).
Proof.
  intros He Hx Hm. unfold round_binary64.
  rewrite (binade_spec x e He Hx). now rewrite (rne_down _ m Hm).
Qed.

(** The float64 [1.0/98] has mantissa [5882252574524729] and exponent
    [-59]; it lies below 1/98. *)
Lemma float_1_over_98 :
  round_binary64 (1 / 98) = IZR 5882252574524729 * powerRZ 2 (-59).
Proof.
  apply (round_binary64_down (1 / 98) (-7) 5882252574524729); [lia| |].
  - rewrite Rabs_pos_eq by lra.
    change (-7 + 1)%Z with (-6)%Z. pow2_consts. lra.
  - change (-7 - 52)%Z with (-59)%Z. pow2_consts. lra.
Qed.

(** Dividing it by 1.0 changes nothing. *)
Lemma float_1_over_98_exact :
  round_binary64 (IZR 5882252574524729 * powerRZ 2 (-59))
  = IZR 5882252574524729 * powerRZ 2 (-59).
Proof.
  apply (round_binary64_down _ (-7) 5882252574524729); [lia| |].
  - rewrite Rabs_pos_eq by (pow2_consts; lra).
    change (-7 + 1)%Z with (-6)%Z. pow2_consts. lra.
  - change (-7 - 52)%Z with (-59)%Z. pow2_consts.
    split; [right|]; field_simplify; lra.
Qed.

(** Its float64 product with 98 is the float64 just below 1. *)
Lemma float_1_over_98_times_98 :
  round_binary64 (IZR 5882252574524729 * powerRZ 2 (-59) * 98)
  = IZR 9007199254740991 * powerRZ 2 (-53).
Proof.
  apply (round_binary64_down _ (-1) 9007199254740991); [lia| |].
  - rewrite Rabs_pos_eq by (pow2_consts; lra).
    change (-1 + 1)%Z with 0%Z. pow2_consts. cbn [powerRZ]. lra.
  - change (-1 - 52)%Z with (-53)%Z. pow2_consts. lra.
Qed.

(* ------------------------------------------------------------------ *)
(** ** The forward model *)

(** Spacing of the Gaussian kernel's abscissae and length of the resampled
    profile: the script's [assert] holds. *)
Lemma gaussian_kernel_fits (δ r_max : R) (m : Z) :
  0 < δ -> 4 * δ < r_max -> (1 <= m)%Z ->
  exists r_kernel rk1 rk0,
    np_linspace (- 4 * δ) (4 * δ) (m * 2 + 1) = Ok r_kernel /\
    index r_kernel 1 = Ok rk1 /\ index r_kernel 0 = Ok rk0 /\
    (3 <= length r_kernel)%nat /\
    (length r_kernel
     <= length (np_arange (- 4 * δ) (r_max + 4 * δ) (rk1 - rk0)))%nat.
Proof.
  intros Hδ Hr Hm.
  destruct (np_linspace_ok (- 4 * δ) (4 * δ) (m * 2 + 1)) as (l & Hl & Hlen & Hnth);
    [lia|].
  assert (Hnum : Z.to_nat (m * 2 + 1) = S (2 * Z.to_nat m)) by lia.
  rewrite Hnum in *.
  exists l. eexists. eexists.
  split; [exact Hl|].
  unfold index. rewrite (Hnth 1%nat), (Hnth 0%nat) by lia.
  split; [reflexivity|]. split; [reflexivity|].
  split; [lia|].
  rewrite np_arange_length, Hlen.
  replace (S (2 * Z.to_nat m) - 1)%nat with (2 * Z.to_nat m)%nat by lia.
  assert (HM : INR (2 * Z.to_nat m) = 2 * IZR m).
  { rewrite mult_INR, (INR_IZR_INZ (Z.to_nat m)), Z2Nat.id by lia.
    simpl. lra. }
  rewrite HM.
  assert (HMr : 1 <= IZR m) by (apply IZR_le in Hm; exact Hm).
  set (Mr := IZR m) in *.
  set (x := (r_max + 4 * δ - - 4 * δ) /
            (- 4 * δ + INR 1 * ((4 * δ - - 4 * δ) / (2 * Mr))
             - (- 4 * δ + INR 0 * ((4 * δ - - 4 * δ) / (2 * Mr))))).
  assert (Hx : 3 * Mr < x).
  { unfold x. simpl INR.
    replace (- 4 * δ + 1 * ((4 * δ - - 4 * δ) / (2 * Mr))
             - (- 4 * δ + 0 * ((4 * δ - - 4 * δ) / (2 * Mr))))
      with (4 * δ / Mr) by (field; lra).
    replace ((r_max + 4 * δ - - 4 * δ) / (4 * δ / Mr))
      with (Mr * (r_max / (4 * δ)) + 2 * Mr) by (field; lra).
    assert (1 < r_max / (4 * δ)).
    { apply Rmult_lt_reg_r with (r := 4 * δ); [lra|].
      unfold Rdiv. rewrite Rmult_assoc, Rinv_l; lra. }
    nra. }
  pose proof (ceilZ_ge x) as Hceil.
  assert (Hz : (3 * m < ceilZ x)%Z).
  { apply lt_IZR. rewrite mult_IZR. fold Mr. lra. }
  lia.
Qed.

Section ForwardModel.
Variable ext : Externals.
Variable n_bins : Z.
Hypothesis n_bins_pos : (1 <= n_bins)%Z.

(** Line 150: when the blur passes the test of line 147 but
    [int(4*δ/r_max*n_bins)] is 0, [r_kernel] has a single entry and
    [r_kernel[1]] raises [IndexError]. *)
Lemma simple_penumbra_index_error (r : list R) (δ Q r0 r_max : R)
  (minimum maximum : npfloat) (e_min e_max : R) :
  4 * δ < r_max ->
  round_binary64 (r_max / IZR n_bins) <= 4 * δ ->
  py_int (round_binary64 (round_binary64 (4 * δ / r_max) * IZR n_bins)) = 0%Z ->
  simple_penumbra ext n_bins r δ Q r0 r_max minimum maximum e_min e_max
  = Raise IndexError.
Proof.
  intros Hr Hpix Hint. unfold simple_penumbra.
  destruct (get_analytic_brightness ext r0 Q e_min e_max) as [rB nB].
  destruct (Rle_dec r_max (4 * δ)); [lra|].
  destruct (Rle_dec (round_binary64 (r_max / IZR n_bins)) (4 * δ)); [|lra].
  rewrite Hint. reflexivity.
Qed.

Lemma simple_penumbra_returns (r : list R) (δ Q r0 r_max : R)
  (minimum maximum : npfloat) (e_min e_max : R) :
  fst (get_analytic_brightness ext r0 Q e_min e_max) <> [] ->
  length (fst (get_analytic_brightness ext r0 Q e_min e_max))
  = length (snd (get_analytic_brightness ext r0 Q e_min e_max)) ->
  0 <= δ -> 4 * δ < r_max -> blur_resolved n_bins δ r_max ->
  exists v,
    simple_penumbra ext n_bins r δ Q r0 r_max minimum maximum e_min e_max
    = Ok v /\ length v = length r.
Proof.
  intros HrB HnB Hδ Hr Hres. unfold simple_penumbra.
  destruct (get_analytic_brightness ext r0 Q e_min e_max) as [rB nB].
  simpl in HrB, HnB.
  destruct (Rle_dec r_max (4 * δ)) as [|Hbig]; [lra|].
  destruct (Rle_dec (round_binary64 (r_max / IZR n_bins)) (4 * δ)) as [Hpix|_].
  - destruct (Hres Hpix) as [Hδ' Hone].
    destruct (gaussian_kernel_fits δ r_max
                (py_int (round_binary64
                           (round_binary64 (4 * δ / r_max) * IZR n_bins))))
      as (r_kernel & rk1 & rk0 & Hlin & Hi1 & Hi0 & Hk3 & Hfit); auto.
    rewrite Hlin. cbn [bind]. rewrite Hi1. cbn [bind]. rewrite Hi0.
    cbn [bind].
    set (r_point := np_arange (- 4 * δ) (r_max + 4 * δ) (rk1 - rk0)) in *.
    destruct (np_interp_ok ext r_point rB nB (Fin 0)) as (n_point & -> & Hnp);
      auto.
    cbn [bind]. rewrite length_map.
    assert (Hle : (length r_kernel <=? length n_point)%nat = true).
    { apply Nat.leb_le. lia. }
    rewrite Hle. cbn [bind].
    destruct (np_convolve_same_ok n_point
                (map (fun rk => Fin (exp (- rk ^ 2 / δ ^ 2))) r_kernel))
      as (pen & -> & Hpen).
    { apply nonempty_length. lia. }
    { apply nonempty_length. rewrite length_map. lia. }
    cbn [bind]. rewrite length_map in Hpen.
    apply rescale_profile_ok.
    + apply nonempty_length. lia.
    + lia.
  - destruct (Rle_dec 0 δ) as [_|]; [|lra].
    destruct (np_linspace_ok 0 r_max n_bins) as (r_point & -> & Hlen & _);
      [lia|].
    cbn [bind].
    destruct (np_interp_ok ext r_point rB nB (Fin 0)) as (pen & -> & Hpen);
      auto.
    cbn [bind]. apply rescale_profile_ok.
    + apply nonempty_length. lia.
    + lia.
Qed.

(** The forward model acts on its radii one by one. *)
Lemma rescale_profile_pointwise (r r_point : list R) (penumbra : list npfloat)
  (minimum maximum : npfloat) (v : list npfloat) :
  rescale_profile ext r r_point penumbra minimum maximum = Ok v ->
  exists xp fp, forall r',
    rescale_profile ext r' r_point penumbra minimum maximum
    = Ok (map (profile_value ext minimum maximum xp fp) r').
Proof.
  unfold rescale_profile, np_interp. intros H.
  destruct (np_max penumbra) as [peak|]; cbn [bind] in *; [|discriminate].
  destruct (length r_point =? 0)%nat; [discriminate|].
  destruct (negb _); [discriminate|].
  exists r_point, (map (fun p => fdiv p peak) penumbra). intros r'.
  cbn [bind]. now rewrite map_map.
Qed.

Lemma simple_penumbra_pointwise (r : list R) (δ Q r0 r_max : R)
  (minimum maximum : npfloat) (e_min e_max : R) (v : list npfloat) :
  simple_penumbra ext n_bins r δ Q r0 r_max minimum maximum e_min e_max
  = Ok v ->
  exists xp fp, forall r',
    simple_penumbra ext n_bins r' δ Q r0 r_max minimum maximum e_min e_max
    = Ok (map (profile_value ext minimum maximum xp fp) r').
Proof.
  unfold simple_penumbra.
  destruct (get_analytic_brightness ext r0 Q e_min e_max) as [rB nB].
  destruct (Rle_dec r_max (4 * δ)); [discriminate|].
  destruct (Rle_dec (round_binary64 (r_max / IZR n_bins)) (4 * δ)).
  - destruct (np_linspace _ _ _) as [r_kernel|]; cbn [bind]; [|discriminate].
    destruct (index r_kernel 1) as [rk1|]; cbn [bind]; [|discriminate].
    destruct (index r_kernel 0) as [rk0|]; cbn [bind]; [|discriminate].
    destruct (np_interp _ _ _ _ _) as [n_point|]; cbn [bind]; [|discriminate].
    destruct (py_assert _); cbn [bind]; [|discriminate].
    destruct (np_convolve_same _ _) as [pen|]; cbn [bind]; [|discriminate].
    apply rescale_profile_pointwise.
  - destruct (Rle_dec 0 δ); [|discriminate].
    destruct (np_linspace _ _ _) as [r_point|]; cbn [bind]; [|discriminate].
    destruct (np_interp _ _ _ _ _) as [pen|]; cbn [bind]; [|discriminate].
    apply rescale_profile_pointwise.
Qed.
End ForwardModel.

(** A blur of zero takes the branch of the Dirac kernel as soon as the
    rounded pixel size is positive. *)
Lemma zero_blur_resolved (n_bins : Z) (r_max : R) :
  0 < round_binary64 (r_max / IZR n_bins) -> blur_resolved n_bins 0 r_max.
Proof. intros Hpos Hpix. lra. Qed.


(* ------------------------------------------------------------------ *)
(** ** The objective *)

Lemma infeasible_true (V : R) (g : fit_params) :
  infeasible V g = true <->
  Q g < 0 \/ Rabs (x0 g) > V \/ Rabs (y0 g) > V.
Proof.
  unfold infeasible. rewrite !orb_true_iff, !Rltb_true.
  unfold Rgt. tauto.
Qed.

Lemma filter_nothing {A : Type} (f : A -> bool) (l : list A) :
  (forall x, In x l -> f x = false) -> filter f l = [].
Proof.
  induction l as [|x l IH]; intros Hf; simpl; [reflexivity|].
  rewrite (Hf x) by (now left). apply IH. intros y Hy. apply Hf. now right.
Qed.

Lemma fit_offsets_none (V s0 r_img : R) :
  V <= r_img -> fit_offsets V s0 r_img = [].
Proof.
  intros Hle. unfold fit_offsets. apply filter_nothing.
  intros o _. unfold fit_test. apply Rltb_false.
  pose proof (np_hypot_nonneg (fst o) (snd o)). lra.
Qed.

Lemma scatter_add_zeros {A B : Type} (l : list A) (mask : list bool)
  (l' : list B) :
  scatter_add (map (fun _ => Fin 0) l) mask (map (fun _ => Fin 0) l')
  = map (fun _ => Fin 0) l.
Proof.
  revert mask l'. induction l as [|x l IH]; intros [|m mask] l';
    cbn [map scatter_add]; auto.
  destruct m.
  - destruct l' as [|y l']; cbn [map fadd].
    + f_equal. apply (IH mask []).
    + f_equal; [f_equal; lra|apply IH].
  - f_equal. apply IH.
Qed.

Section Objective.
Variable ext : Externals.
Variable V : R.
Variable n_bins : Z.

Lemma offsets_fold_raise (g : fit_params) (d : fit_data) (l : list (R * R))
  (e : exn) :
  fold_left (fun st o => bind st (add_aperture ext n_bins g d (fst o) (snd o)))
    l (Raise e)
  = Raise e.
Proof. induction l as [|o l IH]; cbn [fold_left bind]; auto. Qed.

Lemma offsets_fold_returned (g : fit_params) (d : fit_data)
  (l : list (R * R)) (v : npfloat) :
  fold_left (fun st o => bind st (add_aperture ext n_bins g d (fst o) (snd o)))
    l (Ok (Returned v))
  = Ok (Returned v).
Proof. induction l as [|o l IH]; cbn [fold_left bind add_aperture]; auto. Qed.

(** When the loop ends without an exception, it has either returned [inf]
    or marked the pixels the aperture images cover. *)
Lemma offsets_fold_finished (g : fit_params) (d : fit_data)
  (l : list (R * R)) (teo0 : list npfloat) (include : list bool)
  (st : loop_state) :
  fold_left (fun st o => bind st (add_aperture ext n_bins g d (fst o) (snd o)))
    l (Ok (Running teo0 include))
  = Ok st ->
  st = Returned PInf
  \/ exists teo,
       st = Running teo
              (fold_left
                 (fun inc o => mask_set inc (covered g d (fst o) (snd o)))
                 l include).
Proof.
  revert teo0 include. induction l as [|o l IH]; intros teo0 include H;
    cbn [fold_left] in *.
  - injection H as <-. right. now exists teo0.
  - cbn [bind add_aperture] in H.
    destruct (simple_penumbra _ _ _ _ _ _ _ _ _ _ _) as [pen|[]].
    + destruct (existsb isnan _).
      * rewrite offsets_fold_returned in H. injection H as <-. now left.
      * now apply IH in H.
    + rewrite offsets_fold_returned in H. injection H as <-. now left.
    + rewrite offsets_fold_raise in H. discriminate.
    + rewrite offsets_fold_raise in H. discriminate.
Qed.

Lemma fit_loop_finished (g : fit_params) (d : fit_data) (st : loop_state) :
  fit_loop ext V n_bins g d = Ok st ->
  st = Returned PInf \/ exists teo, st = Running teo (include_mask V g d).
Proof.
  rewrite fit_loop_offsets. unfold include_mask.
  apply offsets_fold_finished.
Qed.

(** An exception of the first aperture image ends the loop. *)
Lemma fit_loop_raises (g : fit_params) (d : fit_data) (e : exn) :
  fit_offsets V (s0 d) (r_img d) <> [] -> e <> ValueError ->
  (forall r,
     simple_penumbra ext n_bins r (δ g) (Q g) (r0 g) (r_img d) (Fin 0) (Fin 1)
       (e_min d) (e_max d) = Raise e) ->
  fit_loop ext V n_bins g d = Raise e.
Proof.
  intros Hne He Hpen. rewrite fit_loop_offsets.
  destruct (fit_offsets V (s0 d) (r_img d)) as [|o l]; [congruence|].
  cbn [fold_left bind add_aperture]. rewrite Hpen.
  destruct e; try congruence; apply offsets_fold_raise.
Qed.

(** With a forward model that is zero everywhere the loop runs to its end
    and leaves [teo] at zero. *)
Lemma fit_loop_flat (g : fit_params) (d : fit_data) :
  (forall r,
     simple_penumbra ext n_bins r (δ g) (Q g) (r0 g) (r_img d) (Fin 0) (Fin 1)
       (e_min d) (e_max d) = Ok (map (fun _ => Fin 0) r)) ->
  fit_loop ext V n_bins g d
  = Ok (Running (map (fun _ => Fin 0) (X d)) (include_mask V g d)).
Proof.
  intros Hpen. rewrite fit_loop_offsets. unfold include_mask.
  generalize (map (fun _ : R => false) (X d)) as include.
  induction (fit_offsets V (s0 d) (r_img d)) as [|o l IH]; intros include;
    cbn [fold_left]; [reflexivity|].
  cbn [bind add_aperture]. rewrite Hpen, scatter_add_zeros.
  replace (existsb isnan (map (fun _ : R => Fin 0) (X d))) with false.
  - apply IH.
  - symmetry. clear. induction (X d); cbn; auto.
Qed.

End Objective.


Lemma affine_penalty_value (a b c : R) :
  affine_penalty a b c = (a ^ 2 + 2 * b ^ 2 + c ^ 2) * 15625.
Proof.
  unfold affine_penalty, EXPECTED_MAGNIFICATION_ACCURACY. field.
Qed.

(* ------------------------------------------------------------------ *)
(** ** Grids, kernel, mask and acceptance gate *)

Lemma map2_nth_error {A B C : Type} (f : A -> B -> C) (l1 : list A)
  (l2 : list B) (p : nat) (c : C) :
  nth_error (map2 f l1 l2) p = Some c ->
  exists a b, nth_error l1 p = Some a /\ nth_error l2 p = Some b /\ c = f a b.
Proof.
  revert l2 p. induction l1 as [|a l1 IH]; intros [|b l2] [|p]; simpl;
    try discriminate.
  - intros [= <-]. now exists a, b.
  - apply IH.
Qed.

Lemma bin_width_linspace (a b : R) (n : Z) (l : list R) :
  (1 <= n)%Z -> np_linspace a b (n + 1) = Ok l ->
  bin_width l = Ok ((b - a) / IZR n).
Proof.
  intros Hn Hl.
  destruct (np_linspace_ok a b (n + 1)) as (l' & Hl' & Hlen & Hnth); [lia|].
  rewrite Hl in Hl'. injection Hl' as <-.
  unfold bin_width, index.
  rewrite (Hnth 1%nat), (Hnth 0%nat) by lia. cbn [bind].
  replace (Z.to_nat (n + 1) - 1)%nat with (Z.to_nat n) by lia.
  rewrite (INR_IZR_INZ (Z.to_nat n)), Z2Nat.id by lia. simpl INR.
  f_equal. ring.
Qed.

Lemma linspace_edge (a b : R) (n : Z) (l : list R) (k : nat) :
  (1 <= n)%Z -> np_linspace a b (n + 1) = Ok l -> (k <= Z.to_nat n)%nat ->
  nth_error l k = Some (a + INR k * ((b - a) / IZR n)).
Proof.
  intros Hn Hl Hk.
  destruct (np_linspace_ok a b (n + 1)) as (l' & Hl' & Hlen & Hnth); [lia|].
  rewrite Hl in Hl'. injection Hl' as <-.
  rewrite Hnth by lia.
  replace (Z.to_nat (n + 1) - 1)%nat with (Z.to_nat n) by lia.
  now rewrite (INR_IZR_INZ (Z.to_nat n)), Z2Nat.id by lia.
Qed.

Lemma linspace_length (a b : R) (n : Z) (l : list R) :
  (0 <= n)%Z -> np_linspace a b n = Ok l -> length l = Z.to_nat n.
Proof.
  intros Hn Hl.
  destruct (np_linspace_ok a b n) as (l' & Hl' & Hlen & _); [lia|].
  congruence.
Qed.

(** [l[h:-h]] drops [h] entries at each end. *)
Lemma py_slice_trim {A : Type} (l : list A) (h : Z) (j : nat) :
  (1 <= h)%Z -> (2 * h <= Z.of_nat (length l))%Z ->
  length (py_slice l h (- h)) = (length l - 2 * Z.to_nat h)%nat /\
  ((j < length l - 2 * Z.to_nat h)%nat ->
   nth_error (py_slice l h (- h)) j = nth_error l (Z.to_nat h + j)).
Proof.
  intros Hh Hlen. unfold py_slice.
  destruct (h <? 0)%Z eqn:E1; [lia|].
  destruct (- h <? 0)%Z eqn:E2; [|lia].
  replace (Z.min (Z.of_nat (length l)) (Z.max 0 h)) with h by lia.
  replace (Z.min (Z.of_nat (length l)) (Z.max 0 (- h + Z.of_nat (length l))))
    with (Z.of_nat (length l) - h)%Z by lia.
  replace (Z.to_nat (Z.of_nat (length l) - h - h))
    with (length l - 2 * Z.to_nat h)%nat by lia.
  split.
  - rewrite length_firstn, length_skipn. lia.
  - intros Hj. rewrite nth_error_firstn.
    destruct (Nat.ltb_spec j (length l - 2 * Z.to_nat h)); [|lia].
    now rewrite nth_error_skipn.
Qed.

Section Grids.
Variables V r_img x0 M : R.
Variables n_bins kernel_size : Z.
Hypothesis n_bins_pos : (1 <= n_bins)%Z.

Lemma detector_pitch (xC : list R) :
  detector_bins V n_bins = Ok xC -> bin_width xC = Ok (2 * V / IZR n_bins).
Proof.
  intros H. rewrite (bin_width_linspace _ _ _ _ n_bins_pos H).
  f_equal. unfold Rdiv. ring.
Qed.

Lemma image_pitch (xI : list R) :
  image_bins r_img n_bins x0 = Ok xI ->
  bin_width xI = Ok (2 * r_img / IZR n_bins).
Proof.
  intros H. rewrite (bin_width_linspace _ _ _ _ n_bins_pos H).
  f_equal. unfold Rdiv. ring.
Qed.

Lemma kernel_pitch (dxI : R) (xK : list R) :
  (1 <= kernel_size)%Z ->
  kernel_bins dxI kernel_size = Ok xK -> bin_width xK = Ok dxI.
Proof.
  intros Hk H. rewrite (bin_width_linspace _ _ _ _ Hk H).
  f_equal. assert (1 <= IZR kernel_size) by (now apply IZR_le in Hk).
  field. lra.
Qed.

Lemma source_edges (xI : list R) (j : nat) :
  (1 <= kernel_size / 2)%Z -> (2 * (kernel_size / 2) <= n_bins)%Z ->
  image_bins r_img n_bins x0 = Ok xI ->
  (Z.of_nat j <= n_bins - 2 * (kernel_size / 2))%Z ->
  length (source_bins xI kernel_size M)
  = Z.to_nat (n_bins + 1 - 2 * (kernel_size / 2)) /\
  nth_error (source_bins xI kernel_size M) j
  = Some ((x0 - r_img
           + (IZR (kernel_size / 2) + INR j) * (2 * r_img / IZR n_bins)) / M).
Proof.
  intros Hh Hfit HxI Hj.
  assert (Hlen : length xI = Z.to_nat (n_bins + 1)).
  { eapply linspace_length; [|exact HxI]. lia. }
  unfold source_bins.
  destruct (py_slice_trim xI (kernel_size / 2) j Hh) as [Hslen Hsnth];
    [lia|].
  split.
  - rewrite length_map, Hslen, Hlen. lia.
  - rewrite nth_error_map, Hsnth by lia.
    rewrite (linspace_edge _ _ n_bins xI _ n_bins_pos HxI) by lia.
    cbn [option_map]. f_equal.
    rewrite plus_INR, (INR_IZR_INZ (Z.to_nat (kernel_size / 2))), Z2Nat.id
      by lia.
    unfold Rdiv. ring.
Qed.

Lemma source_pitch (xI : list R) :
  (1 <= kernel_size / 2)%Z -> (2 * (kernel_size / 2) < n_bins)%Z ->
  image_bins r_img n_bins x0 = Ok xI ->
  bin_width (source_bins xI kernel_size M)
  = Ok (2 * r_img / IZR n_bins / M).
Proof.
  intros Hh Hfit HxI. unfold bin_width, index.
  destruct (source_edges xI 1 Hh) as [_ ->]; try lia; auto.
  destruct (source_edges xI 0 Hh) as [_ ->]; try lia; auto.
  cbn [bind]. f_equal. simpl INR. unfold Rdiv. ring.
Qed.

Lemma source_extent (xI : list R) :
  (1 <= kernel_size / 2)%Z -> (2 * (kernel_size / 2) < n_bins)%Z ->
  image_bins r_img n_bins x0 = Ok xI ->
  index (source_bins xI kernel_size M) 0
  = Ok ((x0 - r_img + IZR (kernel_size / 2) * (2 * r_img / IZR n_bins)) / M)
  /\ index_last (source_bins xI kernel_size M)
     = Ok ((x0 + r_img - IZR (kernel_size / 2) * (2 * r_img / IZR n_bins))
           / M).
Proof.
  intros Hh Hfit HxI. split.
  - unfold index. destruct (source_edges xI 0 Hh) as [_ ->]; try lia; auto.
    f_equal. simpl INR. unfold Rdiv. ring.
  - unfold index_last, index.
    destruct (source_edges xI (Z.to_nat (n_bins - 2 * (kernel_size / 2))) Hh)
      as [Hlen Hnth]; try lia; auto.
    destruct (source_bins xI kernel_size M) as [|s l] eqn:Hs.
    { cbn [length] in Hlen. lia. }
    rewrite Hlen.
    replace (Z.to_nat (n_bins + 1 - 2 * (kernel_size / 2)) - 1)%nat
      with (Z.to_nat (n_bins - 2 * (kernel_size / 2))) by lia.
    rewrite Hnth. f_equal.
    rewrite INR_IZR_INZ, Z2Nat.id by lia.
    rewrite minus_IZR, mult_IZR.
    assert (1 <= IZR n_bins) by (now apply IZR_le in n_bins_pos).
    apply (f_equal (fun t => t / M)). field. lra.
Qed.
End Grids.

Lemma odd_kernel_size_odd (r0 dxI : R) : (odd_kernel_size r0 dxI mod 2 = 1)%Z.
Proof.
  unfold odd_kernel_size.
  destruct (((py_int (2 * SPREAD * r0 / dxI) + 1) mod 2 =? 0)%Z) eqn:E.
  - apply Z.eqb_eq in E. rewrite Z.add_mod, E by lia. reflexivity.
  - apply Z.eqb_neq in E.
    pose proof (Z.mod_pos_bound (py_int (2 * SPREAD * r0 / dxI) + 1) 2). lia.
Qed.

Lemma Int_part_IZR (z : Z) : Int_part (IZR z) = z.
Proof. symmetry. apply Int_part_spec. lra. Qed.

(** For a positive magnification and a non-negative aperture radius the
    image has between 50 and 1000 bins a side. *)
Lemma scan_n_bins_range (sc : scan) :
  0 < M sc -> 0 <= rA sc -> (50 <= scan_n_bins sc <= 1000)%Z.
Proof.
  intros HM HrA. unfold scan_n_bins.
  set (x := RESOLUTION / (OBJECT_SIZE * M sc) * scan_r_img sc).
  assert (Hx : 50 <= x).
  { unfold x, scan_r_img, scan_r0, RESOLUTION, OBJECT_SIZE, SPREAD.
    replace (50 / (200 / 10000 * M sc)
             * (105 / 100 * ((M sc + 1) * rA sc) + M sc * (200 / 10000)))
      with (50 + 2625 * ((M sc + 1) * rA sc) / M sc) by (field; lra).
    assert (0 <= 2625 * ((M sc + 1) * rA sc) / M sc).
    { apply Rmult_le_pos; [nra|]. left. now apply Rinv_0_lt_compat. }
    lra. }
  assert (50 <= py_int x)%Z.
  { unfold py_int. destruct (Rle_dec 0 x); [|lra].
    destruct (base_Int_part x) as [_ Hlow].
    apply Z.lt_pred_le. apply lt_IZR. simpl. lra. }
  lia.
Qed.

Section Cut.
Variable ext : Externals.

Lemma data_mask_sound (N reach : list npfloat) (reach_max low hih : npfloat)
  (XI YI : list R) (p : nat) :
  nth_error (data_mask ext N reach reach_max low hih XI YI) p = Some true ->
  exists n r,
    nth_error N p = Some n /\ nth_error reach p = Some r /\
    isfinite n = true /\
    fgt (fdiv r reach_max) low = true /\ flt (fdiv r reach_max) hih = true.
Proof.
  unfold data_mask. intros H.
  apply map2_nth_error in H as (keep & drop & Hkeep & _ & Hand).
  symmetry in Hand. apply andb_true_iff in Hand as [-> _].
  apply map2_nth_error in Hkeep as (n & r & Hn & Hr & Hand).
  symmetry in Hand. apply andb_true_iff in Hand as [Hand Hhih].
  apply andb_true_iff in Hand as [Hfin Hlow].
  now exists n, r.
Qed.

Lemma build_data_bins_sound (N penumbral_kernel : list npfloat)
  (shapeS shapeK : nat * nat) (XI YI : list R) (mask : list bool) (p : nat) :
  build_data_bins ext N penumbral_kernel shapeS shapeK XI YI = Ok mask ->
  nth_error mask p = Some true ->
  exists kernel_max reach_max n r,
    np_max penumbral_kernel = Ok kernel_max /\
    np_max (kernel_reach ext penumbral_kernel shapeS shapeK) = Ok reach_max /\
    nth_error N p = Some n /\
    nth_error (kernel_reach ext penumbral_kernel shapeS shapeK) p = Some r /\
    isfinite n = true /\
    fgt (fdiv r reach_max)
        (profile_quantile ext penumbral_kernel kernel_max (5 / 100)) = true /\
    flt (fdiv r reach_max)
        (profile_quantile ext penumbral_kernel kernel_max (70 / 100)) = true.
Proof.
  unfold build_data_bins. intros Hbuild Hp.
  destruct (np_max penumbral_kernel) as [kernel_max|] eqn:Hk;
    cbn [bind] in Hbuild; [|discriminate].
  destruct (np_max (kernel_reach ext penumbral_kernel shapeS shapeK))
    as [reach_max|] eqn:Hr; cbn [bind] in Hbuild; [|discriminate].
  injection Hbuild as <-.
  apply data_mask_sound in Hp as (n & r & Hn & Hrp & Hfin & Hlow & Hhih).
  exists kernel_max, reach_max, n, r. auto 10.
Qed.

Lemma deconvolve_and_store_skips (st : run_state) (c : prepared)
  (illegal : list bool) :
  illegal_mask c = Ok illegal ->
  unreasonable
    (snd (gelfgat_deconvolve2d ext
            (map (fun n => fsub n (background c)) (counts c))
            (kernel c) (guess c) THRESHOLD (where_mask c) illegal))
    (where_mask c) = true ->
  deconvolve_and_store ext st c = Ok st.
Proof.
  intros Hill Hbad. unfold deconvolve_and_store. rewrite Hill. cbn [bind].
  destruct (gelfgat_deconvolve2d _ _ _ _ _ _ _) as [B χ2].
  cbn [snd] in Hbad. now rewrite Hbad.
Qed.

Lemma process_cut_prepared (sc : scan) (st : run_state) (cut : R * R)
  (c : prepared) :
  prepare_cut ext sc (Q_fit st) cut = Ok (Some c) ->
  process_cut ext sc st cut
  = deconvolve_and_store ext
      {| Q_fit := Some (fit_Q c); image_layers := image_layers st;
         x_layers := x_layers st; y_layers := y_layers st |} c.
Proof. intros H. unfold process_cut. now rewrite H. Qed.

Lemma kernel_sum_nine (n_bins : Z) (XK YK : list R)
  (dxK dyK Q r0 r_img e_min e_max : R) (p : list npfloat) :
  simple_penumbra ext n_bins
    (map2 (fun x y => np_hypot (x + dxK) (y + dyK)) XK YK)
    0 Q r0 r_img (Fin 0) (Fin 1) e_min e_max = Ok p ->
  kernel_sum ext n_bins XK YK dxK dyK Q r0 r_img e_min e_max
  = Ok (fold_left (fun k _ => map2 fadd k p) (seq 0 9)
          (map (fun _ => Fin 0) XK)).
Proof.
  intros Hp. unfold kernel_sum, kernel_passes, kernel_pass_radii.
  cbn [flat_map map app fold_left seq fst snd bind].
  repeat (rewrite Hp; cbn [bind]). reflexivity.
Qed.
End Cut.

Lemma np_sum_finite (k : list R) :
  np_sum (map Fin k) = Fin (fold_left Rplus k 0).
Proof.
  unfold np_sum. generalize 0 as acc.
  induction k as [|v k IH]; intros acc; cbn [map fold_left fadd];
    [reflexivity|apply IH].
Qed.

Lemma fold_left_Rplus_scaled (k : list R) (s acc : R) :
  fold_left Rplus (map (fun v => v / s) k) (acc / s)
  = fold_left Rplus k acc / s.
Proof.
  revert acc. induction k as [|v k IH]; intros acc; cbn [map fold_left];
    [reflexivity|].
  rewrite <- IH. f_equal. unfold Rdiv. ring.
Qed.

(** Dividing finite entries by their non-zero sum leaves a sum of 1. *)
Lemma normalised_sum (k : list R) :
  fold_left Rplus k 0 <> 0 ->
  np_sum (map (fun v => fdiv v (np_sum (map Fin k))) (map Fin k)) = Fin 1.
Proof.
  intros Hs. rewrite np_sum_finite. set (s := fold_left Rplus k 0) in *.
  rewrite map_map.
  replace (map (fun v => fdiv (Fin v) (Fin s)) k)
    with (map Fin (map (fun v => v / s) k)).
  - rewrite np_sum_finite. f_equal.
    replace 0 with (0 / s) at 1 by (unfold Rdiv; ring).
    rewrite fold_left_Rplus_scaled. fold s. now apply Rinv_r.
  - rewrite map_map. apply map_ext. intros v. cbn [fdiv].
    apply Reqb_false in Hs. now rewrite Hs.
Qed.

Section Kernel.
Variable ext : Externals.

(** The kernel has unit sum whenever the nine evaluations are finite and
    do not sum to zero. *)
Lemma build_kernel_unit_sum (n_bins : Z) (XK YK : list R)
  (dxK dyK Q r0 r_img e_min e_max : R) (k : list R) :
  kernel_sum ext n_bins XK YK dxK dyK Q r0 r_img e_min e_max
  = Ok (map Fin k) ->
  fold_left Rplus k 0 <> 0 ->
  exists penumbral_kernel,
    build_kernel ext n_bins XK YK dxK dyK Q r0 r_img e_min e_max
    = Ok penumbral_kernel /\
    np_sum penumbral_kernel = Fin 1.
Proof.
  intros Hk Hs. unfold build_kernel. rewrite Hk. cbn [bind].
  eexists. split; [reflexivity|]. now apply normalised_sum.
Qed.
End Kernel.

Lemma bin_centers_length (bins : list R) :
  length (bin_centers bins) = (length bins - 1)%nat.
Proof.
  unfold bin_centers.
  assert (Hmap2 : forall (l1 l2 : list R),
             length l1 = length l2 ->
             length (map2 (fun lo hi => (lo + hi) / 2) l1 l2) = length l1).
  { induction l1 as [|x l1 IH]; intros [|y l2]; simpl; intros H;
      try discriminate; auto. }
  destruct bins as [|b bins]; [reflexivity|].
  rewrite Hmap2.
  - rewrite removelast_firstn_len, length_firstn. simpl. lia.
  - rewrite removelast_firstn_len, length_firstn. simpl. lia.
Qed.

Lemma meshgrid_ij_length (x y : list R) :
  length (fst (meshgrid_ij x y)) = (length x * length y)%nat /\
  length (snd (meshgrid_ij x y)) = (length x * length y)%nat.
Proof.
  unfold meshgrid_ij. cbn [fst snd].
  induction x as [|xi x [IH1 IH2]]; [split; reflexivity|].
  cbn [flat_map]. rewrite !length_app, length_map, IH1, IH2. simpl. lia.
Qed.

Lemma map2_length {A B C : Type} (f : A -> B -> C) (l1 : list A) (l2 : list B) :
  length (map2 f l1 l2) = Nat.min (length l1) (length l2).
Proof.
  revert l2. induction l1 as [|a l1 IH]; intros [|b l2]; simpl; auto.
Qed.

Lemma build_kernel_ok (ext : Externals) (n_bins : Z) (XK YK : list R)
  (dxK dyK Q r0 r_img e_min e_max : R) :
  (1 <= n_bins)%Z ->
  fst (get_analytic_brightness ext r0 Q e_min e_max) <> [] ->
  length (fst (get_analytic_brightness ext r0 Q e_min e_max))
  = length (snd (get_analytic_brightness ext r0 Q e_min e_max)) ->
  0 < r_img -> 0 < round_binary64 (r_img / IZR n_bins) ->
  length XK = length YK ->
  exists k,
    build_kernel ext n_bins XK YK dxK dyK Q r0 r_img e_min e_max = Ok k /\
    length k = length XK.
Proof.
  intros Hn HrB HnB Hr Hpix Hlen.
  destruct (simple_penumbra_returns ext n_bins Hn
              (map2 (fun x y => np_hypot (x + dxK) (y + dyK)) XK YK)
              0 Q r0 r_img (Fin 0) (Fin 1) e_min e_max HrB HnB)
    as (p & Hp & Hplen); try lra.
  { now apply zero_blur_resolved. }
  rewrite map2_length, <- Hlen, Nat.min_id in Hplen.
  unfold build_kernel. rewrite (kernel_sum_nine _ _ _ _ _ _ _ _ _ _ _ p Hp).
  cbn [bind]. eexists. split; [reflexivity|].
  rewrite length_map. cbn [fold_left seq].
  rewrite !map2_length, length_map, Hplen, !Nat.min_id. reflexivity.
Qed.

(** Counts stay finite when every histogram is. *)
Lemma rebin_finite (ext : Externals) (V s0 r_img : R)
  (track_x track_y xI_bins yI_bins : list R) (zeros : list npfloat)
  (n : nat) :
  (forall xb yb,
     length xb = length xI_bins -> length yb = length yI_bins ->
     length (histogram2d ext track_x track_y xb yb) = n /\
     Forall (fun v => isfinite v = true)
            (histogram2d ext track_x track_y xb yb)) ->
  length zeros = n -> Forall (fun v => isfinite v = true) zeros ->
  length (rebin ext V s0 r_img track_x track_y xI_bins yI_bins zeros) = n /\
  Forall (fun v => isfinite v = true)
         (rebin ext V s0 r_img track_x track_y xI_bins yI_bins zeros).
Proof.
  intros Hhist. rewrite rebin_by_offsets.
  generalize (rebin_offsets V s0 r_img) as offsets.
  intros offsets. revert zeros.
  induction offsets as [|o offsets IH]; intros zeros Hlen Hfin; cbn [fold_left].
  - now split.
  - destruct (Hhist (map (fun x => x + fst o) xI_bins)
                    (map (fun y => y + snd o) yI_bins))
      as [Hhl Hhf]; [now rewrite length_map..|].
    apply IH.
    + rewrite map2_length, Hlen, Hhl. apply Nat.min_id.
    + revert Hfin Hhf.
      generalize (histogram2d ext track_x track_y
                    (map (fun x => x + fst o) xI_bins)
                    (map (fun y => y + snd o) yI_bins)) as h.
      clear. induction zeros as [|z zeros IHz]; intros [|v h] Hz Hv;
        cbn [map2]; auto.
      inversion Hz; inversion Hv; subst. constructor; [|now apply IHz].
      destruct z, v; try discriminate; reflexivity.
Qed.

Lemma prepare_cut_data_bins (ext : Externals) (sc : scan) (Q : option R)
  (cut : R * R) (c : prepared) :
  prepare_cut ext sc Q cut = Ok (Some c) ->
  exists (shapeK : nat * nat) (XI YI : list R),
    build_data_bins ext (counts c) (kernel c)
      (length (xS c), length (yS c)) shapeK XI YI
    = Ok (where_mask c).
Proof.
  unfold prepare_cut. intros H.
  step_ok H. step_ok H.
  cbv zeta in H.
  repeat step_ok H.
  injection H as <-. cbn [counts kernel where_mask xS yS].
  match goal with
  | E : build_data_bins _ _ _ _ _ _ _ = Ok _ |- _ =>
      do 3 eexists; exact E
  end.
Qed.

Lemma illegal_mask_ok (c : prepared) :
  (2 <= length (xS c))%nat -> (1 <= length (yS c))%nat ->
  exists illegal, illegal_mask c = Ok illegal.
Proof.
  intros Hx Hy. unfold illegal_mask, index_last, index.
  destruct (xS c) as [|a [|b l]] eqn:Ex; cbn [length] in Hx; try lia.
  destruct (yS c) as [|a' l'] eqn:Ey; cbn [length] in Hy; try lia.
  cbn [nth_error bind].
  destruct (nth_error (a :: b :: l) (length (a :: b :: l) - 1)) eqn:E1.
  2:{ apply nth_error_None in E1. cbn [length] in E1. lia. }
  cbn [bind].
  destruct (nth_error (a' :: l') (length (a' :: l') - 1)) eqn:E2.
  2:{ apply nth_error_None in E2. cbn [length] in E2. lia. }
  cbn [bind]. eexists. reflexivity.
Qed.

(* ------------------------------------------------------------------ *)
(** ** A sample cut

    The first cut of [sample_scan] runs through [prepare_cut] and reaches
    the deconvolver with a mask of two pixels, the first one included. *)

Lemma sample_r0 : scan_r0 sample_scan = 2 / 105.
Proof. unfold scan_r0, sample_scan. cbn [M rA]. lra. Qed.

Lemma sample_r_img : scan_r_img sample_scan = 4 / 100.
Proof.
  unfold scan_r_img. rewrite sample_r0.
  unfold SPREAD, OBJECT_SIZE, sample_scan. cbn [M]. lra.
Qed.

Lemma sample_n_bins : scan_n_bins sample_scan = 100%Z.
Proof.
  unfold scan_n_bins. rewrite sample_r_img.
  unfold RESOLUTION, OBJECT_SIZE, sample_scan. cbn [M].
  replace (50 / (200 / 10000 * 1) * (4 / 100)) with (IZR 100) by lra.
  unfold py_int. destruct (Rle_dec 0 (IZR 100)); [|lra].
  rewrite Int_part_IZR. reflexivity.
Qed.

Lemma sample_kernel_size :
  odd_kernel_size (2 / 105) (2 * (4 / 100) / IZR 100) = 51%Z.
Proof.
  unfold odd_kernel_size, SPREAD.
  replace (2 * (105 / 100) * (2 / 105) / (2 * (4 / 100) / IZR 100))
    with (IZR 50) by (field; lra).
  unfold py_int. destruct (Rle_dec 0 (IZR 50)); [|lra].
  rewrite Int_part_IZR. reflexivity.
Qed.

Lemma sample_tracks :
  filter
    (fun t : track =>
       hicontrast t &&
       Rleb
         (fst
            (snd (diameter_D sample_externals (0, 13) (etch_time sample_scan)),
             fst (diameter_D sample_externals (0, 13) (etch_time sample_scan))))
         (d_um t) &&
       Rltb (d_um t)
         (snd
            (snd (diameter_D sample_externals (0, 13) (etch_time sample_scan)),
             fst (diameter_D sample_externals (0, 13) (etch_time sample_scan)))))
    (track_list sample_scan)
  = track_list sample_scan.
Proof.
  cbv [sample_scan track_list filter sample_externals diameter_D fst snd
       hicontrast d_um andb Rleb Rltb].
  decide_reals; reflexivity.
Qed.

Lemma sample_histogram (tx ty xb yb : list R) :
  length xb = Z.to_nat (100 + 1) -> length yb = Z.to_nat (100 + 1) ->
  length (histogram2d sample_externals tx ty xb yb) = (100 * 100)%nat /\
  Forall (fun v => isfinite v = true)
         (histogram2d sample_externals tx ty xb yb).
Proof.
  intros Hx Hy. cbn [histogram2d sample_externals]. split.
  - rewrite length_map, length_seq, Hx, Hy. reflexivity.
  - apply Forall_forall. intros v Hv. apply in_map_iff in Hv as (k & <- & _).
    reflexivity.
Qed.

(** On the sample scan the rounded pixel size is positive, and the blur of
    the first vertex of the simplex gives a kernel of more than one
    sample. *)
Lemma sample_pixel_positive : 0 < round_binary64 (4 / 100 / IZR 100).
Proof.
  pose proof (round_binary64_ge_pow (4 / 100 / IZR 100) (-12) ltac:(lia)) as H.
  revert H. pow2_consts. lra.
Qed.

Lemma sample_blur_resolved :
  blur_resolved 100 (OBJECT_SIZE * 1 / 3) (4 / 100).
Proof.
  intros _. unfold OBJECT_SIZE. split; [lra|].
  apply py_int_ge_1.
  pose proof (round_binary64_ge_pow (4 * (200 / 10000 * 1 / 3) / (4 / 100))
                (-1) ltac:(lia)) as H1.
  revert H1. pow2_consts. intros H1.
  pose proof (round_binary64_ge_pow
                (round_binary64 (4 * (200 / 10000 * 1 / 3) / (4 / 100))
                 * IZR 100) 0 ltac:(lia)) as H2.
  cbn [powerRZ] in H2. lra.
Qed.

Lemma sample_run :
  prepared_with
    (fun c => (2 <= length (xS c))%nat /\ (2 <= length (yS c))%nat /\
              where_mask c = [true; false])
    (prepare_cut sample_externals sample_scan None (0, 13)).
Proof.
  unfold prepare_cut. cbv zeta.
  rewrite sample_r_img, sample_n_bins, sample_r0, sample_tracks.
  unfold detector_bins.
  destruct (np_linspace_ok (- VIEW_RADIUS sample_scan) (VIEW_RADIUS sample_scan)
              (100 + 1)) as (xC & -> & HlenC & _); [lia|].
  cbn [bind]. cbn [sample_scan track_list map length Nat.leb x_cm y_cm].
  pose proof (meshgrid_ij_length (bin_centers xC) (bin_centers xC)) as [HXC HYC].
  destruct (meshgrid_ij (bin_centers xC) (bin_centers xC)) as [XC YC].
  cbn [fst snd] in HXC, HYC.
  rewrite bin_centers_length, HlenC in HXC, HYC.
  assert (Hshape :
            Nat.eqb (length (histogram2d sample_externals [0] [0] xC xC))
                    (length XC) = true).
  { apply Nat.eqb_eq. rewrite HXC.
    cbn [histogram2d sample_externals]. rewrite length_map, length_seq, HlenC.
    reflexivity. }
  match goal with
  | |- context [py_assert ?b] => set (bb := b) in *
  end.
  clearbody bb. subst bb. cbn [py_assert bind].
  cbn [minimize sample_externals hd].
  cbn [bind].
  assert (Hn : (1 <= 100)%Z) by lia.
  (* image grid *)
  destruct (np_linspace_ok (0 + 4 / 100 / 2 - 4 / 100)
              (0 + 4 / 100 / 2 + 4 / 100) (100 + 1))
    as (xI & HxI & HlenI & _); [lia|].
  destruct (np_linspace_ok (0 - 4 / 100) (0 + 4 / 100) (100 + 1))
    as (yI & HyI & HlenyI & _); [lia|].
  change (image_bins (4 / 100) 100 (0 + 4 / 100 / 2) = Ok xI) in HxI.
  change (image_bins (4 / 100) 100 0 = Ok yI) in HyI.
  rewrite HxI. cbn [bind]. rewrite HyI. cbn [bind].
  rewrite (image_pitch _ _ _ Hn xI HxI). cbn [bind].
  rewrite (image_pitch _ _ _ Hn yI HyI). cbn [bind].
  rewrite sample_kernel_size.
  pose proof (meshgrid_ij_length (bin_centers xI) (bin_centers yI)) as [HXI HYI].
  destruct (meshgrid_ij (bin_centers xI) (bin_centers yI)) as [XI YI].
  cbn [fst snd] in HXI, HYI.
  rewrite !bin_centers_length, HlenI, HlenyI in HXI, HYI.
  (* kernel grid *)
  set (dxI := 2 * (4 / 100) / IZR 100) in *.
  destruct (np_linspace_ok (- dxI * IZR 51 / 2) (dxI * IZR 51 / 2) (51 + 1))
    as (xK & HxK & HlenK & _); [lia|].
  change (kernel_bins dxI 51 = Ok xK) in HxK.
  rewrite HxK. cbn [bind].
  rewrite (kernel_pitch 51 dxI xK ltac:(lia) HxK). cbn [bind].
  pose proof (meshgrid_ij_length (bin_centers xK) (bin_centers xK)) as [HXK HYK].
  destruct (meshgrid_ij (bin_centers xK) (bin_centers xK)) as [XK YK].
  cbn [fst snd] in HXK, HYK.
  rewrite !bin_centers_length, HlenK in HXK, HYK.
  (* source grid *)
  cbn [M VIEW_RADIUS sample_scan].
  assert (Hh : (1 <= 51 / 2)%Z) by (vm_compute; discriminate).
  assert (Hfit : (2 * (51 / 2) < 100)%Z) by reflexivity.
  assert (Hfit' : (2 * (51 / 2) <= 100)%Z) by (vm_compute; discriminate).
  assert (Hj : (Z.of_nat 0 <= 100 - 2 * (51 / 2))%Z)
    by (vm_compute; discriminate).
  rewrite (source_pitch (4 / 100) (0 + 4 / 100 / 2) 1 100 51 Hn xI
             Hh Hfit HxI).
  rewrite (source_pitch (4 / 100) 0 1 100 51 Hn yI Hh Hfit HyI).
  cbn [bind].
  destruct (source_edges (4 / 100) (0 + 4 / 100 / 2) 1 100 51 Hn xI 0
              Hh Hfit' HxI Hj) as [HlenxS _].
  destruct (source_edges (4 / 100) 0 1 100 51 Hn yI 0
              Hh Hfit' HyI Hj) as [HlenyS _].
  pose proof (bin_centers_length (source_bins xI 51 1)) as HxS.
  pose proof (bin_centers_length (source_bins yI 51 1)) as HyS.
  rewrite HlenxS in HxS. rewrite HlenyS in HyS.
  set (xs := bin_centers (source_bins xI 51 1)) in *.
  set (ys := bin_centers (source_bins yI 51 1)) in *.
  destruct (meshgrid_ij xs ys) as [XS YS].
  (* counts *)
  destruct (rebin_finite sample_externals 5 (scan_s0 sample_scan) (4 / 100)
              [0] [0] xI yI (map (fun _ => Fin 0) XI) (100 * 100))
    as [HlenN HfinN].
  { intros xb yb Hxb Hyb. apply sample_histogram; congruence. }
  { rewrite length_map, HXI. reflexivity. }
  { apply Forall_forall. intros v Hv. apply in_map_iff in Hv as (k & <- & _).
    reflexivity. }
  set (N := rebin sample_externals 5 (scan_s0 sample_scan) (4 / 100)
              [0] [0] xI yI (map (fun _ => Fin 0) XI)) in *.
  (* kernel *)
  destruct (build_kernel_ok sample_externals 100 XK YK dxI dxI (1 / 10)
              (2 / 105) (4 / 100)
              (fst (clip (fst (0, 13) + 2) 0 12, clip (snd (0, 13) + 2) 0 12))
              (snd (clip (fst (0, 13) + 2) 0 12, clip (snd (0, 13) + 2) 0 12)))
    as (k & -> & Hlenk); try lra; try lia; try discriminate; try reflexivity;
    try apply sample_pixel_positive.
  cbn [bind].
  (* initial guess *)
  destruct (simple_penumbra_returns sample_externals 100 Hn
              (radius_from XI YI (0 + 4 / 100 / 2) 0)
              (OBJECT_SIZE * 1 / 3) (1 / 10) (2 / 105) (4 / 100)
              (np_average sample_externals N
                 (map (fun r => Rltb ((4 / 100 + 2 / 105) / 2) r)
                    (radius_from XI YI (0 + 4 / 100 / 2) 0)))
              (np_average sample_externals N
                 (map (fun r => Rltb r (2 / 105 / 2))
                    (radius_from XI YI (0 + 4 / 100 / 2) 0)))
              (fst (clip (fst (0, 13) + 2) 0 12, clip (snd (0, 13) + 2) 0 12))
              (snd (clip (fst (0, 13) + 2) 0 12, clip (snd (0, 13) + 2) 0 12)))
    as (D & -> & _); try discriminate; try reflexivity;
    try (unfold OBJECT_SIZE; lra); try apply sample_blur_resolved.
  cbn [bind].
  (* mask *)
  unfold build_data_bins.
  destruct (np_max_ok k) as (kernel_max & ->).
  { apply nonempty_length. rewrite Hlenk, HXK. vm_compute. lia. }
  cbn [bind]. unfold kernel_reach.
  cbn [convolve2d_full sample_externals np_max fold_left bind].
  unfold prepared_with.
  cbn [xS yS where_mask].
  split; [rewrite HxS; vm_compute; lia|].
  split; [rewrite HyS; vm_compute; lia|].
  destruct N as [|n0 [|n1 N']]; try discriminate HlenN.
  destruct XI as [|xi0 [|xi1 XI']]; try discriminate HXI.
  destruct YI as [|yi0 [|yi1 YI']]; try discriminate HYI.
  inversion HfinN as [|? ? Hn0 _]; subst.
  destruct n0 as [v0| | |]; try discriminate Hn0.
  unfold data_mask, profile_quantile.
  cbn [np_quantile outside_hull sample_externals combine map map2 isfinite
       andb negb].
  replace (map2 (fun n r : npfloat =>
                   isfinite n &&
                   fgt (fdiv r (fmaximum (Fin 1) (Fin 2))) (Fin (5 / 100)) &&
                   flt (fdiv r (fmaximum (Fin 1) (Fin 2))) (Fin (70 / 100)))
                N' [])
    with (@nil bool) by (destruct N'; reflexivity).
  cbn [map2]. rewrite !andb_false_r. cbn [negb]. rewrite !andb_true_r.
  cbv [fmaximum flt fgt fdiv Rltb Reqb]. decide_reals.
  all: destruct (isfinite n1); reflexivity.
Qed.

(* ------------------------------------------------------------------ *)
(** ** The specification's claims *)

Lemma fit_offsets_rebinned (V s0 r_img : R) (o : R * R) :
  In o (fit_offsets V s0 r_img) -> In o (rebin_offsets V s0 r_img).
Proof.
  unfold fit_offsets, rebin_offsets. rewrite !filter_In.
  unfold fit_test, rebin_test. rewrite Rltb_true, Rleb_true.
  intros [Hin Hlt]. split; [assumption|lra].
Qed.

Lemma rebin_offsets_fitted_or_tangent (V s0 r_img : R) (o : R * R) :
  In o (rebin_offsets V s0 r_img) ->
  In o (fit_offsets V s0 r_img) \/ np_hypot (fst o) (snd o) + r_img = V.
Proof.
  unfold fit_offsets, rebin_offsets. rewrite !filter_In.
  unfold fit_test, rebin_test. rewrite Rltb_true, Rleb_true.
  intros [Hin Hle].
  destruct (Rle_lt_or_eq_dec _ _ Hle) as [Hlt|Heq]; [left|now right].
  split; [assumption|lra].
Qed.

(** C8.  The re-binning loop and the objective do not prune the lattice
    alike: whenever the image radius equals the view radius, the central
    aperture (offset [(0, 0)]) is re-binned into the combined image,
    because [0 + r_img <= VIEW_RADIUS], but contributes no aperture image
    to the objective, because [0 < VIEW_RADIUS - r_img] fails. *)
Theorem central_aperture_rebinned_not_fitted (s0 V : R) :
  In (0, 0) (rebin_offsets V s0 V) /\ ~ In (0, 0) (fit_offsets V s0 V).
Proof.
  split.
  - apply rebin_offsets_In. exists 0%Z, 0%Z.
    destruct (lattice_origin s0) as [Hx Hy].
    repeat split; try lia; auto. rewrite np_hypot_0_0. lra.
  - intros Hin. apply fit_offsets_In in Hin as (i & j & _ & _ & _ & _ & Hlt).
    rewrite np_hypot_0_0 in Hlt. lra.
Qed.

(** C2, as stated, fails: with pitch 1, image radius 1 and view radius 100
    the offset [(6, 0)] of a 13 by 13 neighbourhood ([i = 0], [j = 6]) has
    its image disk inside the view radius, yet the objective never visits
    it. *)
Lemma thirteenth_column_not_looped :
  ~ (forall dx dy : R,
       In (dx, dy) (fit_offsets 100 1 1) <->
       exists i j : Z,
         (-6 <= i <= 6)%Z /\ (-6 <= j <= 6)%Z /\
         dx = lattice_dx 1 i j /\ dy = lattice_dy 1 i /\
         np_hypot dx dy + 1 < 100).
Proof.
  intros Hclaim.
  assert (Hx : lattice_dx 1 0 6 = 6).
  { unfold lattice_dx. replace (2 * 6 + 0 mod 2)%Z with 12%Z by reflexivity.
    lra. }
  assert (Hy : lattice_dy 1 0 = 0) by apply lattice_origin.
  assert (Hin : In (6, 0) (fit_offsets 100 1 1)).
  { apply Hclaim. exists 0%Z, 6%Z. repeat split; try lia; auto.
    unfold np_hypot. replace (6 * 6 + 0 * 0) with (6 * 6) by ring.
    rewrite sqrt_square; lra. }
  apply fit_offsets_In in Hin as (i & j & Hi & Hj & Hdx & _).
  unfold lattice_dx in Hdx.
  assert (H12 : IZR (2 * j + i mod 2) = IZR 12) by lra.
  apply eq_IZR in H12.
  pose proof (Z.mod_pos_bound i 2). lia.
Qed.

(** C2, amended.  For every parameter vector that reaches the loop, the
    objective folds the single-aperture contribution [add_aperture] over
    the offsets [fit_offsets]: of the 12 by 12 candidates ([i] and [j] from
    -6 to 5) exactly those whose image disk lies strictly inside the view
    radius, [np.hypot(dx, dy) + r_img < VIEW_RADIUS]. *)
Theorem objective_loops_over_twelve_by_twelve (ext : Externals) (V : R)
  (n_bins : Z) (g : fit_params) (d : fit_data) :
  fit_loop ext V n_bins g d
  = fold_left (fun st o => bind st (add_aperture ext n_bins g d (fst o) (snd o)))
      (fit_offsets V (s0 d) (r_img d))
      (Ok (Running (map (fun _ => Fin 0) (X d)) (map (fun _ => false) (X d))))
  /\ length (lattice_candidates (s0 d)) = (12 * 12)%nat
  /\ forall dx dy : R,
       In (dx, dy) (fit_offsets V (s0 d) (r_img d)) <->
       exists i j : Z,
         (-6 <= i <= 5)%Z /\ (-6 <= j <= 5)%Z /\
         dx = lattice_dx (s0 d) i j /\ dy = lattice_dy (s0 d) i /\
         np_hypot dx dy + r_img d < V.
Proof.
  split; [apply fit_loop_offsets|].
  split; [apply lattice_candidates_length|].
  intros dx dy. apply fit_offsets_In.
Qed.

(** C3.  The affine term of the penalty,
    [(a**2 + 2*b**2 + c**2)/(4*EXPECTED_MAGNIFICATION_ACCURACY**2)], is 0 at
    [a = b = c = 0] and 31250 at the identity [a = 1, b = 0, c = 1]; it is
    smallest at the zero matrix and nowhere else, so it pulls the
    distortion toward zero, not toward the identity. *)
Theorem affine_penalty_minimal_at_zero :
  affine_penalty 0 0 0 = 0 /\ affine_penalty 1 0 1 = 31250 /\
  (forall a b c, affine_penalty 0 0 0 <= affine_penalty a b c) /\
  (forall a b c, affine_penalty a b c = affine_penalty 0 0 0 ->
                 a = 0 /\ b = 0 /\ c = 0).
Proof.
  assert (Hsq : forall x, 0 <= x ^ 2) by (intros; nra).
  split; [rewrite affine_penalty_value; lra|].
  split; [rewrite affine_penalty_value; lra|].
  split.
  - intros a b c. rewrite !affine_penalty_value.
    pose proof (Hsq a). pose proof (Hsq b). pose proof (Hsq c). nra.
  - intros a b c H. rewrite !affine_penalty_value in H.
    pose proof (Hsq a). pose proof (Hsq b). pose proof (Hsq c).
    repeat split; nra.
Qed.

Lemma quarter_pixel_blur_value :
  4 * quarter_pixel_blur = IZR 5882252574524729 * powerRZ 2 (-59).
Proof. unfold quarter_pixel_blur. rewrite float_1_over_98. field. Qed.

(** At that blur the test of line 147 holds with equality, and line 148
    computes a kernel length of [0*2 + 1]. *)
Lemma quarter_pixel_blur_unresolved :
  0 <= quarter_pixel_blur /\ 4 * quarter_pixel_blur < 1 /\
  round_binary64 (1 / IZR 98) <= 4 * quarter_pixel_blur /\
  py_int (round_binary64 (round_binary64 (4 * quarter_pixel_blur / 1)
                          * IZR 98)) = 0%Z.
Proof.
  pose proof quarter_pixel_blur_value as Hq.
  assert (Hval : 0 < 4 * quarter_pixel_blur < 1).
  { rewrite Hq. pow2_consts. lra. }
  split; [lra|]. split; [lra|]. split.
  - rewrite float_1_over_98, Hq. lra.
  - replace (4 * quarter_pixel_blur / 1) with (4 * quarter_pixel_blur)
      by field.
    rewrite Hq, float_1_over_98_exact, float_1_over_98_times_98.
    unfold py_int.
    destruct (Rle_dec 0 (IZR 9007199254740991 * powerRZ 2 (-53))) as [_|Hn].
    + apply Int_part_floor. pow2_consts. lra.
    + exfalso. apply Hn. pow2_consts. lra.
Qed.

(** C5.  [simple_penumbra] raises [ValueError] when [4*δ >= r_max] and when
    [δ < 0] (for an image radius that is not negative), but it does not
    return for every [δ >= 0] with [4*δ < r_max]: when the blur passes the
    test [4*δ >= r_max/n_bins] of line 147 while [int(4*δ/r_max*n_bins)] of
    line 148 is 0, [r_kernel] has one entry and [r_kernel[1]] raises
    [IndexError].  In float64 this happens for [r_max = 1.0],
    [n_bins = 98] and [δ = (1.0/98)/4]: the quotient [1.0/98] is rounded
    down, so its product with 98 is the float64 just below 1. *)
Theorem simple_penumbra_index_error_inside_domain :
  (forall (ext : Externals) (n_bins : Z) (r : list R) (δ Q r0 r_max : R)
          (minimum maximum : npfloat) (e_min e_max : R),
     (1 <= n_bins)%Z ->
     4 * δ >= r_max \/ (δ < 0 /\ 0 <= r_max) ->
     simple_penumbra ext n_bins r δ Q r0 r_max minimum maximum e_min e_max
     = Raise ValueError) /\
  (forall (ext : Externals) (n_bins : Z) (r : list R) (δ Q r0 r_max : R)
          (minimum maximum : npfloat) (e_min e_max : R),
     4 * δ < r_max ->
     round_binary64 (r_max / IZR n_bins) <= 4 * δ ->
     py_int (round_binary64 (round_binary64 (4 * δ / r_max) * IZR n_bins))
     = 0%Z ->
     simple_penumbra ext n_bins r δ Q r0 r_max minimum maximum e_min e_max
     = Raise IndexError) /\
  0 <= quarter_pixel_blur /\ 4 * quarter_pixel_blur < 1 /\
  simple_penumbra sample_externals 98 [0; 1] quarter_pixel_blur 0 1 1
    (Fin 0) (Fin 1) 2 12
  = Raise IndexError.
Proof.
  split; [|split].
  - intros ext n_bins r δ Q r0 r_max minimum maximum e_min e_max Hn Hbad.
    unfold simple_penumbra.
    destruct (get_analytic_brightness ext r0 Q e_min e_max) as [rB nB].
    destruct (Rle_dec r_max (4 * δ)) as [|Hbig]; [reflexivity|].
    destruct Hbad as [|[Hneg Hr]]; [lra|].
    destruct (Rle_dec (round_binary64 (r_max / IZR n_bins)) (4 * δ))
      as [Hpix|_].
    + assert (Hn' : 1 <= IZR n_bins) by (now apply IZR_le in Hn).
      assert (Hq : 0 <= r_max / IZR n_bins).
      { apply Rmult_le_pos; [assumption|]. left. apply Rinv_0_lt_compat.
        lra. }
      pose proof (round_binary64_nonneg _ Hq). lra.
    + destruct (Rle_dec 0 δ); [lra|reflexivity].
  - intros ext n_bins r δ Q r0 r_max minimum maximum e_min e_max
           Hr Hpix Hint.
    now apply simple_penumbra_index_error.
  - destruct quarter_pixel_blur_unresolved as (H0 & H1 & Hpix & Hint).
    split; [assumption|]. split; [assumption|].
    now apply simple_penumbra_index_error.
Qed.

(** C6, amended.  When the charging is negative or the centre lies outside
    the square of half-side [VIEW_RADIUS] (the script's test:
    [abs(x0) > VIEW_RADIUS] or [abs(y0) > VIEW_RADIUS]), [simple_fit]
    returns [inf], whatever the observed image is. *)
Theorem infeasible_parameters_score_infinity (ext : Externals) (V : R)
  (n_bins : Z) (p : list R) (ex : fit_extra) (d : fit_data) (a b c : R)
  (g : fit_params) :
  parse_args p ex a b c = Ok g ->
  Q g < 0 \/ Rabs (x0 g) > V \/ Rabs (y0 g) > V ->
  forall exp' : list npfloat,
    simple_fit ext V n_bins p ex (with_exp d exp') a b c = Ok PInf.
Proof.
  intros Hparse Hbad exp'. unfold simple_fit.
  rewrite Hparse. cbn [bind].
  apply infeasible_true in Hbad. now rewrite Hbad.
Qed.

(** C6, amended, on two examples: charging -1, and a centre at [x0 = 6]
    with view radius 5. *)
Lemma infeasible_parameters_score_infinity_witness :
  simple_fit sample_externals 5 50 [0; 0; 1 / 100; -1] (RadiusOnly 1)
    (with_exp sample_fit_data [Fin 9]) 1 0 1 = Ok PInf /\
  simple_fit sample_externals 5 50 [6; 0; 1 / 100] (ChargeAndRadius 0 1)
    (with_exp sample_fit_data [NaN]) 1 0 1 = Ok PInf.
Proof.
  split.
  - apply (infeasible_parameters_score_infinity sample_externals 5 50
             [0; 0; 1 / 100; -1] (RadiusOnly 1) sample_fit_data 1 0 1
             {| x0 := 0; y0 := 0; δ := 1 / 100; Q := -1; r0 := 1;
                a := 1; b := 0; c := 1 |} eq_refl).
    left. simpl. lra.
  - apply (infeasible_parameters_score_infinity sample_externals 5 50
             [6; 0; 1 / 100] (ChargeAndRadius 0 1) sample_fit_data 1 0 1
             {| x0 := 6; y0 := 0; δ := 1 / 100; Q := 0; r0 := 1;
                a := 1; b := 0; c := 1 |} eq_refl).
    right. left. simpl. rewrite Rabs_pos_eq; lra.
Defined.

Lemma np_hypot_triangle (x y dx dy : R) :
  np_hypot x y <= np_hypot (x - dx) (y - dy) + np_hypot dx dy.
Proof.
  pose proof (triangle x y 0 0 dx dy) as H. unfold dist_euc, Rsqr in H.
  unfold np_hypot.
  replace (x * x + y * y) with ((x - 0) * (x - 0) + (y - 0) * (y - 0)) by ring.
  replace (dx * dx + dy * dy)
    with ((dx - 0) * (dx - 0) + (dy - 0) * (dy - 0)) by ring.
  exact H.
Qed.

Lemma np_hypot_4_4 : 5 < np_hypot 4 4.
Proof.
  unfold np_hypot. rewrite <- (sqrt_square 5) at 1 by lra.
  apply sqrt_lt_1; lra.
Qed.

(** The marks of a single pixel: set as soon as one image covers it. *)
Lemma single_pixel_marks (hits : R * R -> list bool) (l : list (R * R))
  (b0 : bool) :
  (forall o, In o l -> exists b, hits o = [b]) ->
  fold_left (fun inc o => mask_set inc (hits o)) l [b0]
  = [b0 || existsb (fun o => hd false (hits o)) l].
Proof.
  revert b0. induction l as [|o l IH]; intros b0 Hone; cbn [fold_left existsb].
  - now rewrite orb_false_r.
  - destruct (Hone o (or_introl eq_refl)) as [b Hb]. rewrite Hb.
    cbn [mask_set map2 hd]. rewrite IH by (intros o' Ho'; apply Hone; now right).
    now rewrite orb_assoc.
Qed.

Lemma origin_fitted (V s0 r_img : R) :
  r_img < V -> In (lattice_dx s0 0 0, lattice_dy s0 0) (fit_offsets V s0 r_img).
Proof.
  intros HV. apply fit_offsets_In. exists 0%Z, 0%Z.
  repeat split; try lia.
  destruct (lattice_origin s0) as [-> ->]. rewrite np_hypot_0_0. lra.
Qed.

Lemma sample_pixel_50_positive : 0 < round_binary64 (1 / IZR 50).
Proof.
  pose proof (round_binary64_ge_pow (1 / IZR 50) (-6) ltac:(lia)) as H.
  revert H. pow2_consts. lra.
Qed.

(** With the sample externals and no blur the forward model is zero. *)
Lemma sample_penumbra_flat (r : list R) (Q r0 e_min e_max : R) :
  simple_penumbra sample_externals 50 r 0 Q r0 1 (Fin 0) (Fin 1) e_min e_max
  = Ok (map (fun _ => Fin 0) r).
Proof.
  destruct (simple_penumbra_returns sample_externals 50 ltac:(lia) r 0 Q r0 1
              (Fin 0) (Fin 1) e_min e_max) as (v & Hv & _);
    try discriminate; try reflexivity; try lra.
  { apply zero_blur_resolved, sample_pixel_50_positive. }
  destruct (simple_penumbra_pointwise _ _ _ _ _ _ _ _ _ _ _ _ Hv)
    as (xp & fp & Hall).
  rewrite Hall. f_equal. apply map_ext. intros x.
  unfold profile_value. cbn [interp1 sample_externals fsub fneg fadd fmul].
  f_equal. lra.
Qed.

(** C6, as stated, fails: with view radius 5 the centre [(4, 4)] lies
    outside the circle of that radius ([np.hypot(4, 4) > 5]) but passes the
    script's test, and the objective goes on to score the image: with the
    sample externals, no blur and one pixel at the centre it returns a
    finite number. *)
Lemma centre_outside_radius_is_scored :
  ~ (forall (ext : Externals) (V : R) (n_bins : Z) (p : list R)
            (ex : fit_extra) (d : fit_data) (a b c : R) (g : fit_params),
       parse_args p ex a b c = Ok g ->
       Q g < 0 \/ np_hypot (x0 g) (y0 g) > V ->
       forall exp' : list npfloat,
         simple_fit ext V n_bins p ex (with_exp d exp') a b c = Ok PInf).
Proof.
  intros Hclaim.
  specialize (Hclaim sample_externals 5 50%Z [4; 4; 0; 1 / 10] (RadiusOnly 1)
                corner_fit_data 1 0 1
                {| x0 := 4; y0 := 4; δ := 0; Q := 1 / 10; r0 := 1;
                   a := 1; b := 0; c := 1 |} eq_refl).
  cbn [Q x0 y0] in Hclaim.
  specialize (Hclaim (or_intror np_hypot_4_4) [Fin 7]).
  revert Hclaim. unfold simple_fit. cbn [parse_args bind].
  set (g := {| x0 := 4; y0 := 4; δ := 0; Q := 1 / 10; r0 := 1;
               a := 1; b := 0; c := 1 |}).
  set (d := with_exp corner_fit_data [Fin 7]).
  assert (Hfeas : infeasible 5 g = false).
  { unfold infeasible, g. cbn [Q x0 y0]. rewrite Rabs_pos_eq by lra.
    unfold Rltb. decide_reals; reflexivity. }
  rewrite Hfeas.
  rewrite (fit_loop_flat sample_externals 5 50 g d)
    by (intros r; apply sample_penumbra_flat).
  cbn [bind].
  assert (Hinc : include_mask 5 g d = [true]).
  { unfold include_mask. cbn [X d with_exp corner_fit_data map].
    rewrite single_pixel_marks by (intros o _; eexists; reflexivity).
    cbn [orb]. f_equal. apply existsb_exists.
    exists (lattice_dx 1 0 0, lattice_dy 1 0). split.
    - apply origin_fitted. cbn. lra.
    - destruct (lattice_origin 1) as [-> ->].
      cbn [covered r_rel x_eff y_eff map map2 hd fst snd g d with_exp
           corner_fit_data X Y x0 y0 a b c r_img].
      apply Rleb_true.
      replace (1 * (4 - 4) + 0 * (4 - 4) - 0) with 0 by ring.
      replace (0 * (4 - 4) + 1 * (4 - 4) - 0) with 0 by ring.
      rewrite np_hypot_0_0. lra. }
  rewrite Hinc. unfold score, affine_penalty, NON_STATISTICAL_NOISE.
  cbn [count_true filter length Nat.eqb min_max d with_exp corner_fit_data
       map map2 np_sum_where exp_data X a b c Q g].
  cbv [fgt flt fadd fsub fneg fmul fsqr fdiv flog Rltb Reqb signed_inf].
  decide_reals; try discriminate.
  all: exfalso; simpl in *; lra.
Qed.

(** An image that covers the pixel at [(4, 4)] of [corner_fit_data] is not
    inside a view radius of 5. *)
Lemma corner_pixel_uncovered (g : fit_params) (o : R * R) :
  x0 g = 0 -> y0 g = 0 -> a g = 1 -> b g = 0 -> c g = 1 ->
  In o (fit_offsets 5 1 1) ->
  covered g corner_fit_data (fst o) (snd o) = [false].
Proof.
  intros Hx Hy Ha Hb Hc Hin. destruct o as [dx dy].
  apply fit_offsets_In in Hin as (i & j & _ & _ & _ & _ & Hlt).
  cbn [covered r_rel x_eff y_eff map map2 corner_fit_data X Y r_img fst snd].
  rewrite Hx, Hy, Ha, Hb, Hc. f_equal. apply Rleb_false.
  replace (1 * (4 - 0) + 0 * (4 - 0) - dx) with (4 - dx) by ring.
  replace (0 * (4 - 0) + 1 * (4 - 0) - dy) with (4 - dy) by ring.
  pose proof (np_hypot_triangle 4 4 dx dy). pose proof np_hypot_4_4. lra.
Qed.

(** C10.  When the loop over the lattice ends without an exception and the
    [include] mask is false everywhere, [simple_fit] returns [inf] (from
    the loop itself, or from the test [np.sum(include) == 0]) and neither
    the regression nor the likelihood is computed.  But the loop need not
    end: [simple_fit] catches only the [ValueError] of the forward model
    (line 190), so the [IndexError] of line 150 leaves it.  With view
    radius 5, image radius 1.0, 98 bins, the blur [(1.0/98)/4] and one
    pixel at [(4, 4)], which no aperture image covers, the parameters are
    feasible, the mask is empty, and [simple_fit] raises [IndexError]. *)
Theorem empty_include_scores_infinity_unless_index_error :
  (forall (ext : Externals) (V : R) (n_bins : Z) (p : list R)
          (ex : fit_extra) (d : fit_data) (a b c : R) (g : fit_params)
          (st : loop_state),
     parse_args p ex a b c = Ok g ->
     infeasible V g = false ->
     fit_loop ext V n_bins g d = Ok st ->
     count_true (include_mask V g d) = 0%nat ->
     simple_fit ext V n_bins p ex d a b c = Ok PInf) /\
  parse_args [0; 0; quarter_pixel_blur; 1 / 10] (RadiusOnly 1) 1 0 1
  = Ok quarter_pixel_params /\
  infeasible 5 quarter_pixel_params = false /\
  count_true (include_mask 5 quarter_pixel_params corner_fit_data) = 0%nat /\
  simple_fit sample_externals 5 98 [0; 0; quarter_pixel_blur; 1 / 10]
    (RadiusOnly 1) corner_fit_data 1 0 1
  = Raise IndexError.
Proof.
  assert (Hfeas : infeasible 5 quarter_pixel_params = false).
  { unfold infeasible, quarter_pixel_params. cbn [Q x0 y0]. rewrite Rabs_R0.
    unfold Rltb. decide_reals; reflexivity. }
  split; [|split; [reflexivity|split; [exact Hfeas|split]]].
  - intros ext V n_bins p ex d a b c g st Hparse Hfeas' Hloop Hempty.
    unfold simple_fit. rewrite Hparse. cbn [bind]. rewrite Hfeas', Hloop.
    cbn [bind].
    destruct (fit_loop_finished ext V n_bins g d st Hloop) as [->|(teo & ->)];
      [reflexivity|].
    unfold score. rewrite Hempty. reflexivity.
  - unfold include_mask. cbn [s0 r_img X corner_fit_data map].
    rewrite single_pixel_marks.
    + cbn [orb count_true filter length].
      replace (existsb _ _) with false; [reflexivity|].
      symmetry. apply not_true_iff_false. intros Hex.
      apply existsb_exists in Hex as (o & Hin & Ho).
      rewrite (corner_pixel_uncovered quarter_pixel_params o) in Ho;
        try reflexivity; [discriminate|assumption].
    + intros o Ho. exists false.
      now apply corner_pixel_uncovered.
  - unfold simple_fit. cbn [parse_args bind].
    fold quarter_pixel_params. rewrite Hfeas.
    rewrite (fit_loop_raises sample_externals 5 98 quarter_pixel_params
               corner_fit_data IndexError); [reflexivity| |discriminate|].
    + cbn [s0 r_img corner_fit_data]. intros Hnil.
      pose proof (origin_fitted 5 1 1 ltac:(lra)) as Hin.
      rewrite Hnil in Hin. contradiction.
    + intros r. cbn [δ Q r0 r_img e_min e_max quarter_pixel_params
                     corner_fit_data].
      destruct quarter_pixel_blur_unresolved as (_ & H1 & Hpix & Hint).
      apply simple_penumbra_index_error; assumption.
Qed.

(** C9, as stated, fails: with view radius 5, image radius 1 and 50 bins
    the detector grid has pitch 1/5 and the image grid pitch 1/25, so no
    single pitch fits the four grids. *)
Lemma grids_do_not_share_one_pitch :
  ~ (exists (p : R) (xC xI xK : list R),
       detector_bins 5 50 = Ok xC /\
       image_bins 1 50 0 = Ok xI /\
       kernel_bins p 3 = Ok xK /\
       bin_width xC = Ok p /\ bin_width xI = Ok p /\ bin_width xK = Ok p /\
       bin_width (source_bins xI 3 2) = Ok p).
Proof.
  intros (p & xC & xI & xK & HC & HI & _ & HwC & HwI & _).
  assert (Hn : (1 <= 50)%Z) by lia.
  rewrite (detector_pitch 5 50 Hn xC HC) in HwC.
  rewrite (image_pitch 1 0 50 Hn xI HI) in HwI.
  injection HwC as HwC. injection HwI as HwI. lra.
Qed.

(** C9, amended.  With [n_bins >= 1] and a kernel of [kernel_size] pixels
    whose half [kernel_size//2] is at least 1 and leaves two image-bin edges,
    the kernel grid has the pitch [dxI = 2*r_img/n_bins] of the image grid;
    the detector grid has pitch [2*VIEW_RADIUS/n_bins]; the source grid has
    pitch [dxI/M] and runs from [(x0 - r_img + (kernel_size//2)*dxI)/M] to
    [(x0 + r_img - (kernel_size//2)*dxI)/M]: the image grid without
    [kernel_size//2] bins at each end, divided by the magnification. *)
Theorem grid_pitches_and_source_extent (V r_img x0 M : R)
  (n_bins kernel_size : Z) :
  (1 <= n_bins)%Z -> (1 <= kernel_size / 2)%Z ->
  (2 * (kernel_size / 2) < n_bins)%Z ->
  exists (xC xI xK : list R) (dxI : R),
    detector_bins V n_bins = Ok xC /\
    image_bins r_img n_bins x0 = Ok xI /\
    kernel_bins dxI kernel_size = Ok xK /\
    dxI = 2 * r_img / IZR n_bins /\
    bin_width xC = Ok (2 * V / IZR n_bins) /\
    bin_width xI = Ok dxI /\
    bin_width xK = Ok dxI /\
    bin_width (source_bins xI kernel_size M) = Ok (dxI / M) /\
    index (source_bins xI kernel_size M) 0
    = Ok ((x0 - r_img + IZR (kernel_size / 2) * dxI) / M) /\
    index_last (source_bins xI kernel_size M)
    = Ok ((x0 + r_img - IZR (kernel_size / 2) * dxI) / M).
Proof.
  intros Hn Hh Hfit.
  assert (Hk : (1 <= kernel_size)%Z).
  { pose proof (Z.mul_div_le kernel_size 2). lia. }
  destruct (np_linspace_ok (- V) V (n_bins + 1)) as (xC & HC & _); [lia|].
  destruct (np_linspace_ok (x0 - r_img) (x0 + r_img) (n_bins + 1))
    as (xI & HI & _); [lia|].
  set (dxI := 2 * r_img / IZR n_bins).
  destruct (np_linspace_ok (- dxI * IZR kernel_size / 2)
              (dxI * IZR kernel_size / 2) (kernel_size + 1))
    as (xK & HK & _); [lia|].
  exists xC, xI, xK, dxI.
  destruct (source_extent r_img x0 M n_bins kernel_size Hn xI Hh Hfit HI)
    as [Hfirst Hlast].
  repeat split; auto.
  - now apply detector_pitch.
  - now apply (image_pitch r_img x0).
  - now apply (kernel_pitch kernel_size).
  - now apply (source_pitch r_img x0).
Qed.

(** C9, amended, on the grids of the counterexample with a kernel of three
    pixels and magnification 2. *)
Lemma grid_pitches_and_source_extent_witness :
  exists (xC xI xK : list R) (dxI : R),
    detector_bins 5 50 = Ok xC /\
    image_bins 1 50 0 = Ok xI /\
    kernel_bins dxI 3 = Ok xK /\
    dxI = 2 * 1 / IZR 50 /\
    bin_width xC = Ok (2 * 5 / IZR 50) /\
    bin_width xI = Ok dxI /\
    bin_width xK = Ok dxI /\
    bin_width (source_bins xI 3 2) = Ok (dxI / 2) /\
    index (source_bins xI 3 2) 0 = Ok ((0 - 1 + IZR (3 / 2) * dxI) / 2) /\
    index_last (source_bins xI 3 2) = Ok ((0 + 1 - IZR (3 / 2) * dxI) / 2).
Proof.
  apply (grid_pitches_and_source_extent 5 1 0 2 50 3); vm_compute; congruence.
Defined.

(** C1.  Each of the nine passes of the kernel loop evaluates the forward
    model at [np.hypot(XK + dxK, YK + dyK)], one whole pixel away from the
    kernel pixel, whatever the loop variables [dx] and [dy] are.  For the
    pixel at the origin of a grid of pitch 3 the nine passes all use the
    radius [np.hypot(3, 3)]; a third-of-a-pixel offset [(-1, -1)] would
    give another radius. *)
Theorem kernel_loop_ignores_its_offsets :
  (forall (XK YK : list R) (dxK dyK dx dy : R),
     kernel_pass_radii XK YK dxK dyK dx dy
     = map2 (fun x y => np_hypot (x + dxK) (y + dyK)) XK YK) /\
  map (fun pass => kernel_pass_radii [0] [0] 3 3 (fst pass) (snd pass))
      (kernel_passes 3 3)
  = repeat [np_hypot (0 + 3) (0 + 3)] 9 /\
  np_hypot (0 + 3) (0 + 3) <> np_hypot (0 + - 3 / 3) (0 + - 3 / 3).
Proof.
  split; [reflexivity|]. split; [reflexivity|].
  unfold np_hypot. intros Heq.
  apply sqrt_inj in Heq; lra.
Qed.

(** C4.  For every cut that reaches the deconvolver: when the chi-squared
    it returns, divided by the number of pixels in the data mask, is at
    least 2.0, the cut ends without an exception and without appending to
    [image_layers], [x_layers] or [y_layers], and the loop goes on with the
    remaining cuts. *)
Theorem poor_fit_is_discarded (ext : Externals) (sc : scan)
  (st : run_state) (cut : R * R) (rest : list (R * R)) (c : prepared)
  (illegal : list bool) :
  prepare_cut ext sc (Q_fit st) cut = Ok (Some c) ->
  illegal_mask c = Ok illegal ->
  unreasonable
    (snd (gelfgat_deconvolve2d ext
            (map (fun n => fsub n (background c)) (counts c))
            (kernel c) (guess c) THRESHOLD (where_mask c) illegal))
    (where_mask c) = true ->
  exists st',
    process_cut ext sc st cut = Ok st' /\
    image_layers st' = image_layers st /\
    x_layers st' = x_layers st /\
    y_layers st' = y_layers st /\
    process_cuts ext sc (cut :: rest) st = process_cuts ext sc rest st'.
Proof.
  intros Hprep Hill Hbad.
  set (st1 := {| Q_fit := Some (fit_Q c); image_layers := image_layers st;
                 x_layers := x_layers st; y_layers := y_layers st |}).
  assert (Hcut : process_cut ext sc st cut = Ok st1).
  { rewrite (process_cut_prepared ext sc st cut c Hprep).
    apply (deconvolve_and_store_skips ext st1 c illegal Hill Hbad). }
  exists st1. repeat split; auto.
  cbn [process_cuts]. rewrite Hcut. reflexivity.
Qed.

(** C4 on the sample cut: chi-squared 10 over one included pixel. *)
Lemma poor_fit_is_discarded_witness :
  exists st',
    process_cut sample_externals sample_scan initial_state (0, 13) = Ok st' /\
    image_layers st' = [] /\ x_layers st' = [] /\ y_layers st' = [] /\
    process_cuts sample_externals sample_scan [(0, 13); (0, 5)] initial_state
    = process_cuts sample_externals sample_scan [(0, 5)] st'.
Proof.
  pose proof sample_run as Hrun. unfold prepared_with in Hrun.
  destruct (prepare_cut sample_externals sample_scan None (0, 13))
    as [[c|]|] eqn:Hprep; try contradiction.
  destruct Hrun as (Hx & Hy & Hmask).
  destruct (illegal_mask_ok c Hx ltac:(lia)) as [illegal Hill].
  apply (poor_fit_is_discarded sample_externals sample_scan initial_state
           (0, 13) [(0, 5)] c illegal Hprep Hill).
  rewrite Hmask.
  cbv [unreasonable sample_externals gelfgat_deconvolve2d snd count_true
       filter length fge fle fdiv Reqb Rleb INR].
  decide_reals; reflexivity.
Defined.

(** C7.  Every pixel of the data mask handed to the deconvolver has a
    finite count in [N], and its reach (the full convolution of an all-ones
    source image with the kernel, divided by its maximum) is strictly above
    the 0.05 quantile and strictly below the 0.70 quantile of the kernel
    divided by its maximum. *)
Theorem data_bins_are_finite_and_within_reach (ext : Externals) (sc : scan)
  (Q : option R) (cut : R * R) (c : prepared) (p : nat) :
  prepare_cut ext sc Q cut = Ok (Some c) ->
  nth_error (where_mask c) p = Some true ->
  exists (shapeK : nat * nat) (kernel_max reach_max n r : npfloat),
    let reach :=
      kernel_reach ext (kernel c) (length (xS c), length (yS c)) shapeK in
    np_max (kernel c) = Ok kernel_max /\
    np_max reach = Ok reach_max /\
    nth_error (counts c) p = Some n /\
    nth_error reach p = Some r /\
    isfinite n = true /\
    fgt (fdiv r reach_max)
        (profile_quantile ext (kernel c) kernel_max (5 / 100)) = true /\
    flt (fdiv r reach_max)
        (profile_quantile ext (kernel c) kernel_max (70 / 100)) = true.
Proof.
  intros Hprep Hp.
  destruct (prepare_cut_data_bins ext sc Q cut c Hprep)
    as (shapeK & XI & YI & Hbins).
  destruct (build_data_bins_sound ext _ _ _ _ _ _ _ p Hbins Hp)
    as (kernel_max & reach_max & n & r & H).
  exists shapeK, kernel_max, reach_max, n, r. exact H.
Qed.

(** C7 on the sample cut: its first pixel is in the mask, with reach 1/2. *)
Lemma data_bins_are_finite_and_within_reach_witness :
  exists (c : prepared) (shapeK : nat * nat)
         (kernel_max reach_max n r : npfloat),
    prepare_cut sample_externals sample_scan None (0, 13) = Ok (Some c) /\
    nth_error (where_mask c) 0 = Some true /\
    nth_error (counts c) 0 = Some n /\
    isfinite n = true /\
    nth_error
      (kernel_reach sample_externals (kernel c)
         (length (xS c), length (yS c)) shapeK) 0 = Some r /\
    fgt (fdiv r reach_max)
        (profile_quantile sample_externals (kernel c) kernel_max (5 / 100))
    = true /\
    flt (fdiv r reach_max)
        (profile_quantile sample_externals (kernel c) kernel_max (70 / 100))
    = true.
Proof.
  pose proof sample_run as Hrun. unfold prepared_with in Hrun.
  destruct (prepare_cut sample_externals sample_scan None (0, 13))
    as [[c|]|] eqn:Hprep; try contradiction.
  destruct Hrun as (_ & _ & Hmask).
  assert (Hp : nth_error (where_mask c) 0 = Some true)
    by (rewrite Hmask; reflexivity).
  destruct (data_bins_are_finite_and_within_reach sample_externals
              sample_scan None (0, 13) c 0 Hprep Hp)
    as (shapeK & kernel_max & reach_max & n & r & _ & _ & Hn & Hr & Hfin
        & Hlow & Hhih).
  exists c, shapeK, kernel_max, reach_max, n, r. auto 10.
Defined.

(* ================================================================== *)
(** * Further properties of the script *)

(* ------------------------------------------------------------------ *)
(** ** The objective and the forward model *)

Lemma parse_args_supported (p : list R) (ex : fit_extra) (a b c : R) :
  (supported_shape p ex = true /\ exists g, parse_args p ex a b c = Ok g)
  \/ (supported_shape p ex = false /\ parse_args p ex a b c = Raise ValueError).
Proof.
  destruct p as [|p1 [|p2 [|p3 [|p4 [|p5 [|p6 [|p7 [|p8 p]]]]]]]];
    destruct ex; cbn [supported_shape length parse_args];
    try (right; split; reflexivity);
    left; (split; [reflexivity|eexists; reflexivity]).
Qed.

Lemma count_true_falses {A : Type} (l : list A) :
  count_true (map (fun _ => false) l) = 0%nat.
Proof. induction l; simpl; auto. Qed.

(** X1.  When the image radius is not smaller than the view radius, no
    lattice offset passes the test of line 186: for every supported shape
    of arguments [simple_fit] returns [inf], whatever the parameters and
    the data are; with any other shape it raises [ValueError]. *)
Theorem objective_infinite_when_image_fills_view (ext : Externals) (V : R)
  (n_bins : Z) (p : list R) (ex : fit_extra) (d : fit_data) (a b c : R) :
  V <= r_img d ->
  (supported_shape p ex = true ->
   simple_fit ext V n_bins p ex d a b c = Ok PInf) /\
  (supported_shape p ex = false ->
   simple_fit ext V n_bins p ex d a b c = Raise ValueError).
Proof.
  intros HV. unfold simple_fit.
  destruct (parse_args_supported p ex a b c) as [[Hs (g & ->)]|[Hs ->]];
    (split; intros Hs'; [|try reflexivity; congruence]); try congruence.
  cbn [bind]. destruct (infeasible V g); [reflexivity|].
  rewrite fit_loop_offsets, fit_offsets_none by assumption.
  cbn [fold_left bind]. unfold score.
  now rewrite count_true_falses.
Qed.

Lemma objective_infinite_when_image_fills_view_witness :
  simple_fit sample_externals (1 / 2) 50 [0; 0; 1 / 100; 1 / 10]
    (RadiusOnly 1) sample_fit_data 1 0 1 = Ok PInf.
Proof.
  apply (objective_infinite_when_image_fills_view sample_externals (1 / 2) 50
           [0; 0; 1 / 100; 1 / 10] (RadiusOnly 1) sample_fit_data 1 0 1).
  - cbn [r_img sample_fit_data]. lra.
  - reflexivity.
Defined.

Lemma scatter_add_length (a : list npfloat) (mask : list bool)
  (vals : list npfloat) : length (scatter_add a mask vals) = length a.
Proof.
  revert mask vals. induction a as [|x a IH]; intros [|m mask] vals;
    cbn [scatter_add length]; auto.
  destruct m; [destruct vals|]; cbn [length]; now rewrite IH.
Qed.

Lemma scatter_add_untouched (a : list npfloat) (mask : list bool)
  (vals : list npfloat) (k : nat) :
  nth_error mask k = Some false ->
  nth_error (scatter_add a mask vals) k = nth_error a k.
Proof.
  revert mask vals k. induction a as [|x a IH]; intros [|m mask] vals k Hk;
    cbn [scatter_add]; auto.
  destruct k as [|k]; cbn [nth_error] in *.
  - injection Hk as ->. reflexivity.
  - destruct m; [destruct vals|]; cbn [nth_error]; now apply IH.
Qed.

Lemma mask_set_nth (a mask : list bool) (k : nat) (v : bool) :
  nth_error (mask_set a mask) k = Some v ->
  exists x y, nth_error a k = Some x /\ nth_error mask k = Some y /\
              v = x || y.
Proof. apply map2_nth_error. Qed.

Lemma mask_set_length (a mask : list bool) :
  length mask = length a -> length (mask_set a mask) = length a.
Proof.
  intros H. unfold mask_set. rewrite map2_length, H. apply Nat.min_id.
Qed.

Section Marks.
Variable hits : R * R -> list bool.

Lemma marked_false (l : list (R * R)) (inc : list bool) (k : nat) :
  nth_error (fold_left (fun inc o => mask_set inc (hits o)) l inc) k
  = Some false ->
  nth_error inc k = Some false /\
  forall o, In o l -> nth_error (hits o) k = Some false.
Proof.
  revert inc. induction l as [|o l IH]; intros inc H; cbn [fold_left] in H.
  - split; [assumption|]. intros o [].
  - apply IH in H as [H Hl].
    apply mask_set_nth in H as (x & y & Hx & Hy & Hor).
    symmetry in Hor. apply orb_false_iff in Hor as [-> ->].
    split; [assumption|]. intros o' [<-|Hin]; auto.
Qed.

Lemma marked_true (l : list (R * R)) (inc : list bool) (k : nat) :
  nth_error (fold_left (fun inc o => mask_set inc (hits o)) l inc) k
  = Some true ->
  nth_error inc k = Some true \/
  exists o, In o l /\ nth_error (hits o) k = Some true.
Proof.
  revert inc. induction l as [|o l IH]; intros inc H; cbn [fold_left] in H.
  - now left.
  - apply IH in H as [H|(o' & Hin & Ho')].
    + apply mask_set_nth in H as (x & y & Hx & Hy & Hor).
      symmetry in Hor. apply orb_true_iff in Hor as [-> | ->]; [now left|].
      right. exists o. split; [now left|assumption].
    + right. exists o'. split; [now right|assumption].
Qed.

Lemma marked_length (l : list (R * R)) (inc : list bool) :
  (forall o, length (hits o) = length inc) ->
  length (fold_left (fun inc o => mask_set inc (hits o)) l inc) = length inc.
Proof.
  revert inc. induction l as [|o l IH]; intros inc H; cbn [fold_left];
    [reflexivity|].
  rewrite IH; [apply mask_set_length, H|].
  intros o'. rewrite mask_set_length; apply H.
Qed.
End Marks.

(** A loop that is still running at its end was running all along: no pass
    raised or returned, the marks are those of [covered], and a pixel that
    is not marked has kept its value. *)
Lemma loop_running (ext : Externals) (n_bins : Z) (g : fit_params)
  (d : fit_data) (l : list (R * R)) (st : Result loop_state)
  (teo : list npfloat) (include : list bool) :
  fold_left (fun st o => bind st (add_aperture ext n_bins g d (fst o) (snd o)))
    l st
  = Ok (Running teo include) ->
  exists teo0 include0,
    st = Ok (Running teo0 include0) /\
    include
    = fold_left (fun inc o => mask_set inc (covered g d (fst o) (snd o)))
        l include0 /\
    length teo = length teo0 /\
    forall k, nth_error include k = Some false ->
              nth_error teo k = nth_error teo0 k.
Proof.
  revert st. induction l as [|o l IH]; intros st H; cbn [fold_left] in H.
  - exists teo, include. auto.
  - apply IH in H as (teo1 & inc1 & Hst & Hinc & Hlen & Hteo).
    destruct st as [[teo0 inc0|v]|e]; cbn [bind add_aperture] in Hst;
      try discriminate.
    destruct (simple_penumbra _ _ _ _ _ _ _ _ _ _ _) as [pen|[]];
      try discriminate.
    destruct (existsb isnan _); [discriminate|].
    injection Hst as <- <-.
    exists teo0, inc0. split; [reflexivity|]. split; [exact Hinc|].
    split; [now rewrite Hlen, scatter_add_length|].
    intros k Hk. rewrite (Hteo k Hk). rewrite Hinc in Hk.
    apply marked_false in Hk as [Hk _].
    apply mask_set_nth in Hk as (x & y & Hx & Hy & Hor).
    symmetry in Hor. apply orb_false_iff in Hor as [-> ->].
    now apply scatter_add_untouched.
Qed.

Lemma covered_length (g : fit_params) (d : fit_data) (dx dy : R) :
  length (X d) = length (Y d) ->
  length (covered g d dx dy) = length (X d).
Proof.
  intros H. unfold covered, r_rel, x_eff, y_eff.
  rewrite length_map, !map2_length, <- H, !Nat.min_id. reflexivity.
Qed.

Lemma sample_loop_runs :
  fit_loop sample_externals 5 50 corner_params corner_fit_data
  = Ok (Running [Fin 0] (include_mask 5 corner_params corner_fit_data)).
Proof.
  apply (fit_loop_flat sample_externals 5 50 corner_params corner_fit_data).
  intros r. apply sample_penumbra_flat.
Qed.

(** X2.  When the loop of [simple_fit] runs to its end, [include] has the
    shape of [X] and marks exactly the pixels that lie within [r_img] of
    one of the lattice offsets in view. *)
Theorem include_marks_covered_pixels (ext : Externals) (V : R) (n_bins : Z)
  (g : fit_params) (d : fit_data) (teo : list npfloat) (include : list bool) :
  length (X d) = length (Y d) ->
  fit_loop ext V n_bins g d = Ok (Running teo include) ->
  length include = length (X d) /\
  forall k,
    nth_error include k = Some true <->
    exists o, In o (fit_offsets V (s0 d) (r_img d)) /\
              nth_error (covered g d (fst o) (snd o)) k = Some true.
Proof.
  intros HXY H. rewrite fit_loop_offsets in H.
  apply loop_running in H as (teo0 & inc0 & [= <- <-] & Hinc & _ & _).
  assert (Hlen : length include = length (X d)).
  { rewrite Hinc, marked_length; [now rewrite length_map|].
    intros o. now rewrite covered_length, length_map. }
  split; [exact Hlen|]. intros k. split.
  - intros Hk. rewrite Hinc in Hk.
    apply marked_true in Hk as [Hk|Hk]; [|exact Hk].
    rewrite nth_error_map in Hk.
    destruct (nth_error (X d) k); discriminate.
  - intros (o & Hin & Ho).
    assert (Hk : (k < length include)%nat).
    { rewrite Hlen, <- (covered_length g d (fst o) (snd o) HXY).
      apply nth_error_Some. congruence. }
    destruct (nth_error include k) as [[|]|] eqn:E.
    + reflexivity.
    + rewrite Hinc in E. apply marked_false in E as [_ E].
      specialize (E o Hin). congruence.
    + apply nth_error_None in E. lia.
Qed.

Lemma include_marks_covered_pixels_witness :
  length (include_mask 5 corner_params corner_fit_data)
  = length (X corner_fit_data) /\
  forall k,
    nth_error (include_mask 5 corner_params corner_fit_data) k = Some true <->
    exists o, In o (fit_offsets 5 (s0 corner_fit_data) (r_img corner_fit_data))
              /\ nth_error (covered corner_params corner_fit_data
                              (fst o) (snd o)) k = Some true.
Proof.
  apply (include_marks_covered_pixels sample_externals 5 50 corner_params
           corner_fit_data [Fin 0]
           (include_mask 5 corner_params corner_fit_data) eq_refl
           sample_loop_runs).
Defined.



Lemma select_map {A B : Type} (f : A -> B) (mask : list bool) (l : list A) :
  select mask (map f l) = map f (select mask l).
Proof.
  revert l. induction mask as [|m mask IH]; intros [|x l]; cbn [select map];
    auto.
  destruct m; cbn [map]; now rewrite IH.
Qed.

(** X4.  [simple_penumbra] treats its radii one by one: when it returns
    for the radii [r], it returns for any selection [r[mask]] of them, with
    the same selection of the values.  This is what lets [simple_fit]
    evaluate it on [r_rel[r_rel <= r_img]] only. *)
Theorem simple_penumbra_commutes_with_masking (ext : Externals) (n_bins : Z)
  (r : list R) (δ Q r0 r_max : R) (minimum maximum : npfloat)
  (e_min e_max : R) (v : list npfloat) (mask : list bool) :
  simple_penumbra ext n_bins r δ Q r0 r_max minimum maximum e_min e_max
  = Ok v ->
  simple_penumbra ext n_bins (select mask r) δ Q r0 r_max minimum maximum
    e_min e_max
  = Ok (select mask v).
Proof.
  intros H.
  destruct (simple_penumbra_pointwise _ _ _ _ _ _ _ _ _ _ _ _ H)
    as (xp & fp & Hall).
  rewrite Hall in H. injection H as <-.
  rewrite Hall. now rewrite select_map.
Qed.

Lemma simple_penumbra_commutes_with_masking_witness :
  simple_penumbra sample_externals 50 (select [false; true] [0; 1 / 2]) 0
    (1 / 10) 1 1 (Fin 0) (Fin 1) 2 12
  = Ok (select [false; true] (map (fun _ => Fin 0) [0; 1 / 2])).
Proof.
  apply (simple_penumbra_commutes_with_masking sample_externals 50 [0; 1 / 2]
           0 (1 / 10) 1 1 (Fin 0) (Fin 1) 2 12).
  apply sample_penumbra_flat.
Defined.

(* ------------------------------------------------------------------ *)
(** ** The aperture lattice *)

Lemma sqrt3_sqr : sqrt 3 * sqrt 3 = 3.
Proof. apply sqrt_sqrt. lra. Qed.

Lemma np_hypot_scaled (s u v : R) :
  np_hypot (u * s) (v * s) = Rabs s * np_hypot u v.
Proof.
  unfold np_hypot.
  replace (u * s * (u * s) + v * s * (v * s)) with (Rsqr s * (u * u + v * v))
    by (unfold Rsqr; ring).
  rewrite sqrt_mult; [|apply Rle_0_sqr|nra].
  now rewrite sqrt_Rsqr_abs.
Qed.

(** [k] half-pitches along x and [i] rows along y are
    [|s0| * sqrt((k^2 + 3 i^2)/4)] away. *)
Lemma hex_hypot (s0 : R) (k i : Z) :
  np_hypot (IZR k * s0 / 2) (IZR i * sqrt 3 / 2 * s0)
  = Rabs s0 * sqrt (IZR (k * k + 3 * (i * i)) / 4).
Proof.
  replace (IZR k * s0 / 2) with (IZR k / 2 * s0) by (unfold Rdiv; ring).
  rewrite np_hypot_scaled. f_equal. unfold np_hypot. f_equal.
  rewrite plus_IZR, !mult_IZR.
  replace (IZR i * sqrt 3 / 2 * (IZR i * sqrt 3 / 2))
    with (IZR i * IZR i * (sqrt 3 * sqrt 3) / 4) by field.
  rewrite sqrt3_sqr. field.
Qed.

Lemma hex_hypot_ge (s0 : R) (k i : Z) :
  (4 <= k * k + 3 * (i * i))%Z ->
  Rabs s0 <= np_hypot (IZR k * s0 / 2) (IZR i * sqrt 3 / 2 * s0).
Proof.
  intros H. rewrite hex_hypot. apply IZR_le in H.
  set (K := IZR (k * k + 3 * (i * i))) in *.
  assert (H1 : 1 <= sqrt (K / 4)).
  { rewrite <- sqrt_1 at 1. apply sqrt_le_1; lra. }
  pose proof (Rabs_pos s0) as H0.
  rewrite <- (Rmult_1_r (Rabs s0)) at 1.
  apply Rmult_le_compat_l; assumption.
Qed.

(** Off the origin, the lattice index has norm at least 4. *)
Lemma lattice_index_norm (i j : Z) :
  (i <> 0 \/ j <> 0)%Z ->
  (4 <= (2 * j + i mod 2) * (2 * j + i mod 2) + 3 * (i * i))%Z.
Proof.
  intros H.
  pose proof (Z.mod_pos_bound i 2 ltac:(lia)) as Hm.
  pose proof (Z.div_mod i 2 ltac:(lia)) as Hd.
  set (m := (i mod 2)%Z) in *. set (k := (2 * j + m)%Z).
  destruct (Z.eq_dec i 0) as [E|E].
  - assert (Hm0 : m = 0%Z) by (unfold m; rewrite E; reflexivity).
    assert (Hj : (j <> 0)%Z) by lia.
    assert (Habs : (2 <= Z.abs k)%Z) by (unfold k; lia).
    assert (Hsq : (k * k = Z.abs k * Z.abs k)%Z) by lia.
    rewrite E, Hsq. nia.
  - destruct (Z.eq_dec (Z.abs i) 1) as [E1|E1].
    + assert (Hm1 : m = 1%Z) by lia.
      assert (Habs : (1 <= Z.abs k)%Z) by (unfold k; lia).
      assert (Hsq : (k * k = Z.abs k * Z.abs k)%Z) by lia.
      assert (Hi : (i * i = 1)%Z) by lia.
      rewrite Hi, Hsq. nia.
    + assert (Habs : (2 <= Z.abs i)%Z) by lia.
      assert (Hsq : (i * i = Z.abs i * Z.abs i)%Z) by lia.
      assert (Hk0 : (0 <= k * k)%Z) by apply Z.square_nonneg.
      rewrite Hsq. nia.
Qed.

Lemma lattice_far_from_origin (s0 : R) (i j : Z) :
  (i <> 0 \/ j <> 0)%Z ->
  Rabs s0 <= np_hypot (lattice_dx s0 i j) (lattice_dy s0 i).
Proof.
  intros H. unfold lattice_dx, lattice_dy.
  apply hex_hypot_ge. now apply lattice_index_norm.
Qed.

Lemma only_origin_within_pitch (s0 bound dx dy : R) :
  0 < bound <= Rabs s0 ->
  (exists i j : Z, (-6 <= i <= 5)%Z /\ (-6 <= j <= 5)%Z /\
       dx = lattice_dx s0 i j /\ dy = lattice_dy s0 i /\
       np_hypot dx dy < bound) <->
  dx = 0 /\ dy = 0.
Proof.
  intros Hb. split.
  - intros (i & j & Hi & Hj & -> & -> & Hlt).
    destruct (Z.eq_dec i 0) as [->|Hi0].
    + destruct (Z.eq_dec j 0) as [->|Hj0]; [apply lattice_origin|].
      pose proof (lattice_far_from_origin s0 0 j ltac:(now right)).
      lra.
    + pose proof (lattice_far_from_origin s0 i j ltac:(now left)).
      lra.
  - intros [-> ->]. exists 0%Z, 0%Z.
    destruct (lattice_origin s0) as [-> ->].
    repeat split; try lia. rewrite np_hypot_0_0. lra.
Qed.

Lemma default_pitch (V_before M : R) :
  M + 1 <> 0 -> (M + 1) * aperture_pitch V_before M 0 = 6 * V_before.
Proof.
  intros HM. unfold aperture_pitch.
  destruct (Req_dec_T 0 0) as [_|]; [|lra]. field. exact HM.
Qed.

(** X5.  A scan whose catalogue pitch is 0 gets the pitch
    [s0 = (M + 1)*sA = 6*VIEW_RADIUS], with the view radius of the row read
    before.  If the view radius [V] of the scan itself leaves room for an
    image ([r_img < V]) but [V - r_img] stays below that pitch, the central
    aperture [(0, 0)] is the only lattice offset that the objective uses
    and the only one that is re-binned. *)
Theorem default_pitch_leaves_one_aperture (V_before V M r_img dx dy : R) :
  M + 1 <> 0 -> 0 < V - r_img < 6 * V_before ->
  (In (dx, dy) (fit_offsets V ((M + 1) * aperture_pitch V_before M 0) r_img)
   <-> dx = 0 /\ dy = 0) /\
  (In (dx, dy) (rebin_offsets V ((M + 1) * aperture_pitch V_before M 0) r_img)
   <-> dx = 0 /\ dy = 0).
Proof.
  intros HM HV. rewrite default_pitch by assumption.
  assert (Habs : Rabs (6 * V_before) = 6 * V_before)
    by (apply Rabs_right; lra).
  split.
  - rewrite fit_offsets_In.
    rewrite <- (only_origin_within_pitch (6 * V_before) (V - r_img) dx dy)
      by lra.
    split; intros (i & j & Hi & Hj & Hx & Hy & H); exists i, j;
      repeat split; try lia; auto; lra.
  - rewrite rebin_offsets_In. split.
    + intros (i & j & Hi & Hj & Hx & Hy & H).
      apply (only_origin_within_pitch (6 * V_before) (6 * V_before) dx dy);
        [lra|].
      exists i, j. repeat split; try lia; auto. lra.
    + intros [-> ->]. exists 0%Z, 0%Z.
      destruct (lattice_origin (6 * V_before)) as [-> ->].
      repeat split; try lia. rewrite np_hypot_0_0. lra.
Qed.

Lemma default_pitch_leaves_one_aperture_witness :
  (In (0, 0) (fit_offsets 5 ((1 + 1) * aperture_pitch 5 1 0) 1)
   <-> 0 = 0 /\ 0 = 0) /\
  (In (0, 0) (rebin_offsets 5 ((1 + 1) * aperture_pitch 5 1 0) 1)
   <-> 0 = 0 /\ 0 = 0).
Proof. apply (default_pitch_leaves_one_aperture 5 5 1 1 0 0); lra. Defined.

(** X6.  The objective and the re-binning loop let the same lattice
    offsets through, except those whose image disk touches the view radius
    exactly: these are re-binned but not fitted. *)
Theorem loops_differ_only_on_tangent_offsets (V s0 r_img : R) (o : R * R) :
  In o (fit_offsets V s0 r_img) <->
  In o (rebin_offsets V s0 r_img) /\ np_hypot (fst o) (snd o) + r_img <> V.
Proof.
  unfold fit_offsets, rebin_offsets. rewrite !filter_In.
  unfold fit_test, rebin_test. rewrite Rltb_true, Rleb_true.
  split.
  - intros [Hin Hlt]. repeat split; [assumption|lra|lra].
  - intros [[Hin Hle] Hne]. split; [assumption|lra].
Qed.

(** X7.  When the image radius exceeds the view radius, no offset passes
    the test of line 336 and the combined image stays as it was
    initialised, all zeros, whatever the tracks are. *)
Theorem rebin_outside_view_adds_nothing (ext : Externals) (V s0 r_img : R)
  (track_x track_y xI_bins yI_bins : list R) (zeros : list npfloat) :
  V < r_img ->
  rebin ext V s0 r_img track_x track_y xI_bins yI_bins zeros = zeros.
Proof.
  intros HV. rewrite rebin_by_offsets.
  replace (rebin_offsets V s0 r_img) with (@nil (R * R)); [reflexivity|].
  symmetry. apply filter_nothing. intros o _.
  unfold rebin_test. apply Rleb_false.
  pose proof (np_hypot_nonneg (fst o) (snd o)). lra.
Qed.

Lemma rebin_outside_view_adds_nothing_witness :
  rebin sample_externals (1 / 2) 1 1 [0] [0] [- 1; 1] [- 1; 1] [Fin 0]
  = [Fin 0].
Proof.
  apply (rebin_outside_view_adds_nothing sample_externals (1 / 2) 1 1
           [0] [0] [- 1; 1] [- 1; 1] [Fin 0]).
  lra.
Defined.

(* ------------------------------------------------------------------ *)
(** ** The cuts of a scan *)

(** X8.  The kernel has an odd number of pixels, the first odd number
    above [int(2*SPREAD*r0/dxI)]. *)
Theorem kernel_size_is_next_odd (r0 dxI : R) :
  (odd_kernel_size r0 dxI mod 2 = 1)%Z /\
  (py_int (2 * SPREAD * r0 / dxI) + 1 <= odd_kernel_size r0 dxI
   <= py_int (2 * SPREAD * r0 / dxI) + 2)%Z.
Proof.
  unfold odd_kernel_size.
  pose proof (Z.mod_pos_bound (py_int (2 * SPREAD * r0 / dxI) + 1) 2
                ltac:(lia)) as Hm.
  destruct (((py_int (2 * SPREAD * r0 / dxI) + 1) mod 2 =? 0)%Z) eqn:E.
  - apply Z.eqb_eq in E. split; [|lia].
    rewrite Z.add_mod, E by lia. reflexivity.
  - apply Z.eqb_neq in E. lia.
Qed.

Lemma odd_kernel_size_zero (dxI : R) : odd_kernel_size 0 dxI = 1%Z.
Proof.
  unfold odd_kernel_size.
  replace (2 * SPREAD * 0 / dxI) with (IZR 0) by (unfold Rdiv; ring).
  unfold py_int. destruct (Rle_dec 0 (IZR 0)); [|lra].
  rewrite Int_part_IZR. reflexivity.
Qed.

Lemma source_bins_one (xI_bins : list R) (M : R) :
  source_bins xI_bins 1 M = [].
Proof.
  unfold source_bins, py_slice.
  change (1 / 2)%Z with 0%Z. change (- 0)%Z with 0%Z. cbn [Z.ltb Z.compare].
  replace (Z.min (Z.of_nat (length xI_bins)) (Z.max 0 0)) with 0%Z by lia.
  reflexivity.
Qed.

(** X9.  With an aperture of radius zero ([r0 = 0]) the kernel is one pixel
    wide, the slice [xI_bins[0:-0]] of line 346 is empty, and line 347
    cannot index it: no cut of such a scan reaches the deconvolver. *)
Theorem zero_aperture_never_prepared (ext : Externals) (sc : scan)
  (Q : option R) (cut : R * R) :
  scan_r0 sc = 0 ->
  ~ prepared_with (fun _ => True) (prepare_cut ext sc Q cut).
Proof.
  intros Hr0 Hrun. unfold prepared_with in Hrun.
  destruct (prepare_cut ext sc Q cut) as [[c|]|] eqn:H; try contradiction.
  clear Hrun. unfold prepare_cut in H. cbv zeta in H. rewrite Hr0 in H.
  step_ok H. step_ok H.
  repeat step_ok H.
  all: match goal with
       | E : bin_width (source_bins _ (odd_kernel_size 0 _) _) = Ok _ |- _ =>
           rewrite odd_kernel_size_zero, source_bins_one in E;
           discriminate E
       end.
Qed.

Lemma zero_aperture_never_prepared_witness :
  ~ prepared_with (fun _ => True)
      (prepare_cut sample_externals zero_aperture_scan None (0, 13)).
Proof.
  apply (zero_aperture_never_prepared sample_externals zero_aperture_scan
           None (0, 13)).
  unfold scan_r0, zero_aperture_scan. cbn [M rA]. ring.
Defined.

(** X10.  A cut that no track falls into is skipped: with an upper and a
    lower diameter bound from [diameter.D], if no high-contrast track has
    its diameter in [[lower, upper)], the pass leaves the fitted charging
    and the three lists of layers as they were. *)
Theorem empty_cut_is_skipped (ext : Externals) (sc : scan) (st : run_state)
  (cut : R * R) (upper lower : R) :
  (1 <= scan_n_bins sc)%Z ->
  diameter_D ext cut (etch_time sc) = (upper, lower) ->
  (forall t, In t (track_list sc) -> hicontrast t = true ->
             lower <= d_um t -> d_um t < upper -> False) ->
  process_cut ext sc st cut = Ok st.
Proof.
  intros Hn HD Hnone. unfold process_cut, prepare_cut. cbv zeta.
  rewrite HD. cbn [fst snd].
  rewrite filter_nothing.
  - unfold detector_bins.
    destruct (np_linspace_ok (- VIEW_RADIUS sc) (VIEW_RADIUS sc)
                (scan_n_bins sc + 1)) as (xC & -> & _); [lia|].
    reflexivity.
  - intros t Ht.
    destruct (hicontrast t) eqn:Hh; [|reflexivity]. cbn [andb].
    destruct (Rleb_spec lower (d_um t)); [|reflexivity]. cbn [andb].
    apply Rltb_false.
    destruct (Rle_lt_dec upper (d_um t)); [assumption|].
    exfalso. now apply (Hnone t).
Qed.

Lemma empty_cut_is_skipped_witness :
  process_cut sample_externals sample_scan initial_state (5, 9)
  = Ok initial_state.
Proof.
  apply (empty_cut_is_skipped sample_externals sample_scan initial_state
           (5, 9) 9 5).
  - rewrite sample_n_bins. lia.
  - reflexivity.
  - intros t [<-|[]] _. cbn [d_um]. lra.
Defined.


(** What [deconvolve_and_store] does to the state when it returns. *)
Lemma deconvolve_and_store_cases (ext : Externals) (st st' : run_state)
  (c : prepared) :
  deconvolve_and_store ext st c = Ok st' ->
  st' = st \/
  exists (B : list npfloat) (B_max : npfloat),
    np_max (map (fun v => fmaximum (Fin 0) v) B) = Ok B_max /\
    st' = {| Q_fit := Q_fit st;
             image_layers :=
               image_layers st
               ++ [map (fun v => fdiv v B_max)
                       (map (fun v => fmaximum (Fin 0) v) B)];
             x_layers := x_layers st ++ [XS c];
             y_layers := y_layers st ++ [YS c] |}.
Proof.
  unfold deconvolve_and_store. intros H.
  destruct (illegal_mask c) as [illegal|]; cbn [bind] in H; [|discriminate].
  destruct (gelfgat_deconvolve2d _ _ _ _ _ _ _) as [B χ2].
  destruct (unreasonable χ2 (where_mask c)).
  - injection H as <-. now left.
  - destruct (np_max _) as [B_max|] eqn:Hmax; cbn [bind] in H;
      [|discriminate].
    injection H as <-. right. now exists B, B_max.
Qed.



Lemma sample_cut_discarded :
  exists c,
    prepare_cut sample_externals sample_scan None (0, 13) = Ok (Some c) /\
    process_cut sample_externals sample_scan initial_state (0, 13)
    = Ok {| Q_fit := Some (fit_Q c); image_layers := [];
            x_layers := []; y_layers := [] |}.
Proof.
  pose proof sample_run as Hrun. unfold prepared_with in Hrun.
  destruct (prepare_cut sample_externals sample_scan None (0, 13))
    as [[c|]|] eqn:Hprep; try contradiction.
  destruct Hrun as (Hx & Hy & Hmask).
  destruct (illegal_mask_ok c Hx ltac:(lia)) as [illegal Hill].
  exists c. split; [reflexivity|].
  rewrite (process_cut_prepared sample_externals sample_scan initial_state
             (0, 13) c Hprep).
  apply (deconvolve_and_store_skips sample_externals _ c illegal Hill).
  rewrite Hmask.
  cbv [unreasonable sample_externals gelfgat_deconvolve2d snd count_true
       filter length fge fle fdiv Reqb Rleb INR].
  decide_reals; reflexivity.
Qed.


(** On the sample scan no track has a diameter between 5 and 9. *)
Lemma sample_empty_cut (st : run_state) :
  process_cut sample_externals sample_scan st (5, 9) = Ok st.
Proof.
  unfold process_cut, prepare_cut. cbv zeta. rewrite sample_n_bins.
  unfold detector_bins.
  destruct (np_linspace_ok (- VIEW_RADIUS sample_scan) (VIEW_RADIUS sample_scan)
              (100 + 1)) as (xC & -> & _); [lia|].
  cbn [bind sample_scan track_list filter hicontrast d_um diameter_D
       sample_externals fst snd andb].
  replace (Rleb 5 1) with false by (symmetry; apply Rleb_false; lra).
  reflexivity.
Qed.





Lemma process_cut_cases (ext : Externals) (sc : scan) (st st' : run_state)
  (cut : R * R) :
  process_cut ext sc st cut = Ok st' ->
  (image_layers st' = image_layers st /\ x_layers st' = x_layers st /\
   y_layers st' = y_layers st) \/
  exists (c : prepared) (B : list npfloat) (B_max : npfloat),
    prepare_cut ext sc (Q_fit st) cut = Ok (Some c) /\
    np_max (map (fun v => fmaximum (Fin 0) v) B) = Ok B_max /\
    image_layers st'
    = image_layers st
      ++ [map (fun v => fdiv v B_max) (map (fun v => fmaximum (Fin 0) v) B)] /\
    x_layers st' = x_layers st ++ [XS c] /\
    y_layers st' = y_layers st ++ [YS c].
Proof.
  unfold process_cut. intros H.
  destruct (prepare_cut ext sc (Q_fit st) cut) as [[c|]|] eqn:Hprep;
    cbn [bind] in H; [| |discriminate].
  - apply deconvolve_and_store_cases in H as [->|(B & m & Hmax & ->)].
    + left. auto.
    + right. exists c, B, m. auto.
  - injection H as <-. left. auto.
Qed.

(** X13.  Over the cuts of a scan the three lists of layers only grow, and
    they grow together: each cut appends nothing, or one entry to each of
    [image_layers], [x_layers] and [y_layers]. *)
Theorem layers_grow_together (ext : Externals) (sc : scan)
  (cuts : list (R * R)) (st st' : run_state) :
  process_cuts ext sc cuts st = Ok st' ->
  exists (images : list (list npfloat)) (xs ys : list (list R)),
    image_layers st' = image_layers st ++ images /\
    x_layers st' = x_layers st ++ xs /\
    y_layers st' = y_layers st ++ ys /\
    length xs = length images /\ length ys = length images /\
    (length images <= length cuts)%nat.
Proof.
  revert st. induction cuts as [|cut cuts IH]; intros st H;
    cbn [process_cuts] in H.
  - injection H as <-. exists [], [], []. rewrite !app_nil_r.
    repeat split; auto.
  - destruct (process_cut ext sc st cut) as [st1|] eqn:Hcut; cbn [bind] in H;
      [|discriminate].
    apply IH in H as (images & xs & ys & Hi & Hx & Hy & Hlx & Hly & Hle).
    apply process_cut_cases in Hcut
      as [(Ei & Ex & Ey)|(c & B & m & _ & _ & Ei & Ex & Ey)].
    + exists images, xs, ys. rewrite Hi, Hx, Hy, Ei, Ex, Ey.
      cbn [length]. repeat split; auto.
    + exists (map (fun v => fdiv v m) (map (fun v => fmaximum (Fin 0) v) B)
              :: images), (XS c :: xs), (YS c :: ys).
      rewrite Hi, Hx, Hy, Ei, Ex, Ey, <- !app_assoc. cbn [app length].
      repeat split; auto; lia.
Qed.

Lemma layers_grow_together_witness :
  exists (st' : run_state) (images : list (list npfloat))
         (xs ys : list (list R)),
    process_cuts sample_externals sample_scan [(0, 13); (5, 9)] initial_state
    = Ok st' /\
    image_layers st' = image_layers initial_state ++ images /\
    x_layers st' = x_layers initial_state ++ xs /\
    y_layers st' = y_layers initial_state ++ ys /\
    length xs = length images /\ length ys = length images /\
    (length images <= length [(0, 13); (5, 9)])%nat.
Proof.
  destruct sample_cut_discarded as (c & _ & Hcut).
  assert (Hrun :
            process_cuts sample_externals sample_scan [(0, 13); (5, 9)]
              initial_state
            = Ok {| Q_fit := Some (fit_Q c); image_layers := [];
                    x_layers := []; y_layers := [] |}).
  { cbn [process_cuts]. rewrite Hcut. cbn [bind].
    now rewrite sample_empty_cut. }
  destruct (layers_grow_together sample_externals sample_scan
              [(0, 13); (5, 9)] initial_state _ Hrun)
    as (images & xs & ys & H).
  eexists. exists images, xs, ys. split; [exact Hrun|exact H].
Defined.

Lemma fold_fmaximum_nan (l : list npfloat) : fold_left fmaximum l NaN = NaN.
Proof. induction l as [|v l IH]; cbn [fold_left fmaximum]; auto. Qed.

(** A value after [np.maximum(0, .)]: [nan], [inf] or a number that is not
    negative. *)
Lemma clamped_cases (v : npfloat) :
  fmaximum (Fin 0) v = NaN \/ fmaximum (Fin 0) v = PInf \/
  exists x, fmaximum (Fin 0) v = Fin x /\ 0 <= x.
Proof.
  destruct v as [x| | |]; cbn [fmaximum flt].
  - right. right. destruct (Rltb_spec 0 x); eexists; split; eauto; lra.
  - right. now left.
  - right. right. exists 0. split; [reflexivity|lra].
  - now left.
Qed.

(** The running maximum is [nan], or at least its start and every entry. *)
Lemma fold_fmaximum_bound (l : list npfloat) (m0 : npfloat) :
  fold_left fmaximum l m0 = NaN \/
  (fle m0 (fold_left fmaximum l m0) = true /\
   forall v, In v l -> fle v (fold_left fmaximum l m0) = true).
Proof.
  revert m0. induction l as [|v l IH]; intros m0; cbn [fold_left].
  - destruct m0 as [x| | |]; [right|right|right|now left];
      (split; [|intros v []]); cbn [fle]; auto.
    apply Rleb_true. lra.
  - destruct (IH (fmaximum m0 v)) as [Hnan|[Hm Hl]]; [now left|].
    right.
    remember (fold_left fmaximum l (fmaximum m0 v)) as m eqn:Em.
    assert (Hboth : fle m0 m = true /\ fle v m = true).
    { clear Em Hl IH.
      destruct m0 as [x0| | |], v as [x| | |]; cbn [fmaximum flt] in Hm;
        try (destruct (Rltb_spec x0 x));
        destruct m as [xm| | |]; cbn [fle] in *; try discriminate; auto;
        apply Rleb_true in Hm; split; apply Rleb_true; lra. }
    destruct Hboth as [H0 Hv]. split; [assumption|].
    intros w [<-|Hw]; auto.
Qed.

Lemma normalised_entry (v m : npfloat) :
  (fmaximum (Fin 0) v = NaN \/ fmaximum (Fin 0) v = PInf \/
   exists x, fmaximum (Fin 0) v = Fin x /\ 0 <= x) ->
  m = NaN \/ fle (fmaximum (Fin 0) v) m = true ->
  unit_or_nan (fdiv (fmaximum (Fin 0) v) m).
Proof.
  intros Hv Hm. unfold unit_or_nan.
  destruct Hm as [->|Hle].
  { left. destruct (fmaximum (Fin 0) v); reflexivity. }
  destruct Hv as [Hv|[Hv|(x & Hv & Hx)]]; rewrite Hv in *.
  - now left.
  - destruct m; cbn [fle] in Hle; try discriminate. now left.
  - destruct m as [xm| | |]; cbn [fle fdiv] in *; try discriminate.
    + apply Rleb_true in Hle.
      destruct (Reqb_spec xm 0) as [->|Hne].
      * assert (x = 0) by lra. subst x.
        destruct (Reqb_spec 0 0); [now left|lra].
      * right. eexists. split; [reflexivity|].
        assert (Hpos : 0 < xm) by lra.
        split.
        -- apply Rmult_le_pos; [assumption|]. left.
           now apply Rinv_0_lt_compat.
        -- apply Rmult_le_reg_r with (r := xm); [assumption|].
           unfold Rdiv. rewrite Rmult_assoc, Rinv_l by lra. lra.
    + right. exists 0. split; [reflexivity|lra].
Qed.

Lemma normalised_layer (B : list npfloat) (B_max : npfloat) :
  np_max (map (fun v => fmaximum (Fin 0) v) B) = Ok B_max ->
  Forall unit_or_nan
    (map (fun v => fdiv v B_max) (map (fun v => fmaximum (Fin 0) v) B)).
Proof.
  intros Hmax. rewrite map_map. apply Forall_forall. intros w Hw.
  apply in_map_iff in Hw as (v & <- & Hv).
  apply normalised_entry; [apply clamped_cases|].
  destruct B as [|b B]; [discriminate|]. cbn [map np_max] in Hmax.
  injection Hmax as <-.
  destruct (fold_fmaximum_bound (map (fun v => fmaximum (Fin 0) v) B)
              (fmaximum (Fin 0) b)) as [Hnan|[H0 Hl]]; [now left|].
  right. destruct Hv as [<-|Hv]; [assumption|].
  apply Hl. apply in_map_iff. now exists v.
Qed.

(** X14.  When the pass of a cut stores a map, it appends one entry to each
    of the three lists, and every brightness of the stored map is [nan] or
    a number between 0 and 1: the map is clamped at zero and divided by its
    maximum, so it holds neither a negative number nor an infinity. *)
Theorem stored_map_is_normalised (ext : Externals) (st st' : run_state)
  (c : prepared) :
  deconvolve_and_store ext st c = Ok st' ->
  st' = st \/
  exists layer : list npfloat,
    image_layers st' = image_layers st ++ [layer] /\
    x_layers st' = x_layers st ++ [XS c] /\
    y_layers st' = y_layers st ++ [YS c] /\
    Forall unit_or_nan layer.
Proof.
  intros H. apply deconvolve_and_store_cases in H as [->|(B & m & Hmax & ->)].
  - now left.
  - right. eexists. cbn [image_layers x_layers y_layers].
    repeat split. now apply normalised_layer.
Qed.

Lemma stored_map_is_normalised_witness :
  exists st',
    deconvolve_and_store accepting_externals initial_state sample_prepared
    = Ok st' /\
    (st' = initial_state \/
     exists layer : list npfloat,
       image_layers st' = image_layers initial_state ++ [layer] /\
       x_layers st' = x_layers initial_state ++ [XS sample_prepared] /\
       y_layers st' = y_layers initial_state ++ [YS sample_prepared] /\
       Forall unit_or_nan layer).
Proof.
  destruct (deconvolve_and_store accepting_externals initial_state
              sample_prepared) as [st'|e] eqn:H.
  - exists st'. split; [reflexivity|].
    apply (stored_map_is_normalised accepting_externals initial_state st'
             sample_prepared H).
  - exfalso. revert H.
    cbv [deconvolve_and_store illegal_mask sample_prepared xS yS XS YS
         index index_last nth_error length Nat.sub bind map2
         accepting_externals gelfgat_deconvolve2d where_mask unreasonable
         count_true filter INR fge fle fdiv Reqb Rleb map np_max].
    decide_reals; discriminate.
Defined.

(** X15.  The composite plot is drawn as soon as two layers are stored, but
    it reads layer 3: with two or three stored layers (one or two of the
    four cuts skipped or thrown away) line 433 raises [IndexError]. *)
Theorem nest_plot_needs_four_layers (st : run_state) :
  (2 <= length (image_layers st) <= 3)%nat ->
  length (x_layers st) = length (image_layers st) ->
  length (y_layers st) = length (image_layers st) ->
  hd [] (image_layers st) <> [] ->
  nest_plot_layers st = Raise IndexError.
Proof.
  intros Hlen Hx Hy Hne. unfold nest_plot_layers.
  destruct (image_layers st) as [|i0 [|i1 [|i2 [|i3 il]]]];
    cbn [length] in *; try lia;
    destruct (x_layers st) as [|x0 [|x1 [|x2 [|x3 xl]]]];
    cbn [length] in *; try lia;
    destruct (y_layers st) as [|y0 [|y1 [|y2 [|y3 yl]]]];
    cbn [length] in *; try lia;
    cbn [Nat.ltb Nat.leb index nth_error bind hd] in *;
    (destruct i0 as [|v i0]; [congruence|]); cbn [np_argmax bind];
    unfold index;
    (destruct (nth_error x0 _); cbn [bind]; [|reflexivity]);
    (destruct (nth_error y0 _); cbn [bind]; reflexivity).
Qed.

Lemma nest_plot_needs_four_layers_witness :
  nest_plot_layers two_layer_state = Raise IndexError.
Proof.
  apply (nest_plot_needs_four_layers two_layer_state).
  - cbn. lia.
  - reflexivity.
  - reflexivity.
  - discriminate.
Defined.
